(** * Taskflow backend: the natural-language task parser

    A shallow embedding of [parse_natural_language] and [get_next_weekday]
    from [src/routes/tasks.py], with the parts of the Python runtime they
    call ([str.strip], [str.replace], [in], [re.search], [re.sub],
    [re.findall], [date.replace], [date.weekday]) written out for the
    patterns and arguments the source passes to them. *)

From Stdlib Require Import String Ascii.
From Stdlib Require Import List NArith ZArith Lia Bool.
Import ListNotations.

(** ** Text

    A Python [str] is a sequence of code points. *)

Definition char := N.
Definition str := list char.

Fixpoint lit (s : string) : str :=
  match s with
  | EmptyString => []
  | String a s' => N_of_ascii a :: lit s'
  end.

Definition char_eqb (a b : char) : bool := N.eqb a b.

Fixpoint str_eqb (a b : str) : bool :=
  match a, b with
  | [], [] => true
  | x :: a', y :: b' => char_eqb x y && str_eqb a' b'
  | _, _ => false
  end.

Definition in_range (lo hi c : char) : bool := (N.leb lo c && N.leb c hi)%bool.

(** [str.isspace] for one code point: the whitespace set of CPython's
    Unicode database. *)
Definition is_space (c : char) : bool :=
  (in_range 9 13 c || in_range 28 32 c || N.eqb c 133 || N.eqb c 160
   || N.eqb c 5760 || in_range 8192 8202 c || N.eqb c 8232 || N.eqb c 8233
   || N.eqb c 8239 || N.eqb c 8287 || N.eqb c 12288)%N%bool.

Definition hash : char := 35%N.
Definition bang : char := 33%N.

(** ** Exceptions *)

Inductive exn := TypeError | ValueError.

Inductive exc (A : Type) : Type :=
| Ok (a : A)
| Raise (e : exn).
Arguments Ok {A} a.
Arguments Raise {A} e.

Definition bind {A B} (m : exc A) (k : A -> exc B) : exc B :=
  match m with
  | Ok a => k a
  | Raise e => Raise e
  end.

(** [try: body / except: handler] with a bare [except]. *)
Definition try_except {A} (body : exc A) (handler : exc A) : exc A :=
  match body with
  | Ok a => Ok a
  | Raise _ => handler
  end.

Notation "x <- m ;; k" := (bind m (fun x => k))
  (at level 61, m at next level, right associativity).

(** ** Calendar dates ([datetime.date]) *)

Record date := mkdate { year : Z; month : Z; day : Z }.

Definition is_leap (y : Z) : bool :=
  (Z.eqb (y mod 4) 0 && (negb (Z.eqb (y mod 100) 0) || Z.eqb (y mod 400) 0))%Z%bool.

Definition days_in_month (y m : Z) : Z :=
  if (Z.eqb m 2 && is_leap y)%bool then 29%Z
  else nth (Z.to_nat m) [0; 31; 28; 31; 30; 31; 30; 31; 31; 30; 31; 30; 31]%Z 0%Z.

Definition days_before_year (y : Z) : Z :=
  let y := (y - 1)%Z in (y * 365 + y / 4 - y / 100 + y / 400)%Z.

Definition days_before_month (y m : Z) : Z :=
  (nth (Z.to_nat m) [0; 0; 31; 59; 90; 120; 151; 181; 212; 243; 273; 304; 334] 0
   + (if (Z.ltb 2 m && is_leap y)%bool then 1 else 0))%Z.

Definition toordinal (d : date) : Z :=
  (days_before_year (year d) + days_before_month (year d) (month d) + day d)%Z.

(** Monday is 0, Sunday is 6. *)
Definition weekday (d : date) : Z := ((toordinal d + 6) mod 7)%Z.

(** [d.replace(day=n)]: the constructor's range check raises [ValueError]. *)
Definition date_replace_day (d : date) (n : Z) : exc date :=
  if (Z.leb 1 n && Z.leb n (days_in_month (year d) (month d)))%Z%bool
  then Ok (mkdate (year d) (month d) n)
  else Raise ValueError.

(** ** The result dictionary

    Its keys beside ['title'] are present or not. *)

Record ParseResult := mkresult {
  title : str;
  due_date : option date;
  tags : option (list str);
  priority : option Z
}.

Definition set_title (r : ParseResult) (t : str) : ParseResult :=
  mkresult t (due_date r) (tags r) (priority r).
Definition set_due_date (r : ParseResult) (d : date) : ParseResult :=
  mkresult (title r) (Some d) (tags r) (priority r).
Definition set_tags (r : ParseResult) (l : list str) : ParseResult :=
  mkresult (title r) (due_date r) (Some l) (priority r).
Definition set_priority (r : ParseResult) (p : Z) : ParseResult :=
  mkresult (title r) (due_date r) (tags r) (Some p).

(** ** String methods *)

Fixpoint lstrip (s : str) : str :=
  match s with
  | [] => []
  | c :: s' => if is_space c then lstrip s' else s
  end.

Definition rstrip (s : str) : str := rev (lstrip (rev s)).

Definition strip (s : str) : str := rstrip (lstrip s).

Fixpoint starts_with (p s : str) : bool :=
  match p, s with
  | [], _ => true
  | x :: p', c :: s' => char_eqb x c && starts_with p' s'
  | _ :: _, [] => false
  end.

(** [sub in s]. *)
Fixpoint str_in (sub s : str) : bool :=
  starts_with sub s ||
  match s with
  | [] => false
  | _ :: s' => str_in sub s'
  end.

(** [str.lower] on the code points that can end in an ASCII letter: the
    ASCII capitals, U+0130 (to i followed by U+0307) and U+212A (to k).
    Other code points are left as they are; their lowercase is never an
    ASCII letter, and the source only compares the result with the ASCII
    day names. *)
Definition lower_char (c : char) : str :=
  if in_range 65%N 90%N c then [(c + 32)%N]
  else if N.eqb c 304%N then [105; 775]%N
  else if N.eqb c 8490%N then [107]%N
  else [c].

Definition str_lower (s : str) : str := flat_map lower_char s.

(** [l.index(x)]: [ValueError] when [x] is not in the list. *)
Fixpoint list_index (l : list str) (x : str) : exc Z :=
  match l with
  | [] => Raise ValueError
  | y :: l' => if str_eqb y x then Ok 0%Z
               else i <- list_index l' x ;; Ok (i + 1)%Z
  end.

(** ** Regular expressions

    The source uses three shapes of pattern: a parenthesised alternation
    of literal words between two [\b], [#(\w+)] and [#\w+]. The last two
    match the same text and differ only in the group [re.findall]
    returns. *)

Inductive regex :=
| WordAlt (alts : list str)
| HashWord.

Definition group1 (re : regex) (m : str) : str :=
  match re with
  | WordAlt _ => m
  | HashWord => tl m
  end.

(** One lower-case ASCII pattern letter against one code point. Under
    [re.IGNORECASE] a code point matches when its simple lowercase is the
    letter or one of the letter's case fixes: beside the letter and its
    capital that is U+0130 and U+0131 for i, U+017F for s and U+212A
    for k. *)
Definition ci_eq (p c : char) : bool :=
  (N.eqb c p
   || (in_range 97 122 p && N.eqb (c + 32) p)
   || (N.eqb p 105 && (N.eqb c 304 || N.eqb c 305))
   || (N.eqb p 115 && N.eqb c 383)
   || (N.eqb p 107 && N.eqb c 8490))%N%bool.

Definition lit_eq (ignorecase : bool) (p c : char) : bool :=
  if ignorecase then ci_eq p c else char_eqb p c.

Fixpoint lit_prefix (ignorecase : bool) (p s : str) : bool :=
  match p, s with
  | [], _ => true
  | x :: p', c :: s' => lit_eq ignorecase x c && lit_prefix ignorecase p' s'
  | _ :: _, [] => false
  end.

(** A sample table for concrete runs: the alphanumeric code points of the
    Latin-1 supplement, nothing above it. *)
Definition latin1_alnum (c : char) : bool :=
  (N.eqb c 170 || N.eqb c 178 || N.eqb c 179 || N.eqb c 181 || N.eqb c 185
   || N.eqb c 186 || in_range 188 190 c || in_range 192 214 c
   || in_range 216 246 c || in_range 248 255 c)%N%bool.

Definition friday_15_march_2024 : date := mkdate 2024 3 15.
Definition wednesday_31_january_2024 : date := mkdate 2024 1 31.

(** ** Values and answers of the views

    [parse_task] and [create_task] of [src/routes/tasks.py], from the body
    [request.get_json()] hands them. *)

(** The Python values the two views handle: what [json.loads] builds, and
    the dates the parser adds. A float is its IEEE 754 binary64 pattern. *)
#[warnings="-register-all"] Inductive value :=
| VNone
| VBool (b : bool)
| VInt (z : Z)
| VFloat (bits : N)
| VStr (s : str)
| VList (l : list value)
| VDict (d : list (str * value))
| VDate (d : date).

Definition dict := list (str * value).

(** [bool(v)]. *)
Definition truthy (v : value) : bool :=
  match v with
  | VNone => false
  | VBool b => b
  | VInt z => negb (Z.eqb z 0)
  | VFloat bits => negb (N.eqb (N.land bits 9223372036854775807) 0)
  | VStr s => negb (Nat.eqb (length s) 0)
  | VList l => negb (Nat.eqb (length l) 0)
  | VDict d => negb (Nat.eqb (length d) 0)
  | VDate _ => true
  end.

(** [type(v).__name__]. *)
Definition type_name (v : value) : string :=
  match v with
  | VNone => "NoneType"
  | VBool _ => "bool"
  | VInt _ => "int"
  | VFloat _ => "float"
  | VStr _ => "str"
  | VList _ => "list"
  | VDict _ => "dict"
  | VDate _ => "date"
  end.

(** What a view can catch: a missing attribute, a missing key, an
    exception of the parser, or one raised outside this file, of which
    only the message is kept. *)
Inductive raised :=
| AttributeError (type attribute : string)
| KeyError (key : str)
| Raised (e : exn)
| External (message : str).

Inductive outcome (A : Type) : Type :=
| Return (a : A)
| Throw (e : raised).
Arguments Return {A} a.
Arguments Throw {A} e.

Definition obind {A B} (m : outcome A) (k : A -> outcome B) : outcome B :=
  match m with
  | Return a => k a
  | Throw e => Throw e
  end.

Notation "x <~ m ;; k" := (obind m (fun x => k))
  (at level 61, m at next level, right associativity).

Fixpoint dict_get (d : dict) (k : str) : option value :=
  match d with
  | [] => None
  | (k', v) :: d' => if str_eqb k' k then Some v else dict_get d' k
  end.

(** [d[k] = v]: an existing key keeps its place. *)
Fixpoint dict_set (d : dict) (k : str) (v : value) : dict :=
  match d with
  | [] => [(k, v)]
  | (k', v') :: d' =>
      if str_eqb k' k then (k', v) :: d' else (k', v') :: dict_set d' k v
  end.

(** [d.update(items)]. *)
Definition dict_update (d items : dict) : dict :=
  fold_left (fun acc kv => dict_set acc (fst kv) (snd kv)) items d.

(** [v.get(k, default)]: only a dict has the method. *)
Definition value_get (v : value) (k : str) (default : value) : outcome value :=
  match v with
  | VDict d =>
      Return (match dict_get d k with
              | Some x => x
              | None => default
              end)
  | _ => Throw (AttributeError (type_name v) "get")
  end.

(** [d.get(k, default)] on a dict. *)
Definition dict_get_or (d : dict) (k : str) (default : value) : value :=
  match dict_get d k with
  | Some x => x
  | None => default
  end.

(** [v[k]] with a string key. *)
Definition value_item (v : value) (k : str) : outcome value :=
  match v with
  | VDict d =>
      match dict_get d k with
      | Some x => Return x
      | None => Throw (KeyError k)
      end
  | _ => Throw (Raised TypeError)
  end.

(** The dictionary [parse_natural_language] returns, key by key in the
    order it sets them. *)
Definition result_items (r : ParseResult) : dict :=
  [(lit "title", VStr (title r))]
  ++ match due_date r with
     | Some d => [(lit "due_date", VDate d)]
     | None => []
     end
  ++ match tags r with
     | Some l => [(lit "tags", VList (map VStr l))]
     | None => []
     end
  ++ match priority r with
     | Some p => [(lit "priority", VInt p)]
     | None => []
     end.

(** The body handed to [jsonify]: a dictionary, or [{'error': str(e)}] for
    a caught exception [e]. *)
Inductive payload :=
| JsonOf (v : value)
| ErrorOf (e : raised).

Definition response := (payload * Z)%type.

Definition error_body (message : string) : payload :=
  JsonOf (VDict [(lit "error", VStr (lit message))]).

(** [try: body / except Exception as e: return jsonify({'error': str(e)}),
    500]. *)
Definition handle (body : outcome response) : response :=
  match body with
  | Return r => r
  | Throw e => (ErrorOf e, 500%Z)
  end.

(** [not data or not data.get(key)]. *)
Definition missing (data : value) (key : str) : outcome bool :=
  if negb (truthy data) then Return true
  else v <~ value_get data key VNone ;; Return (negb (truthy v)).

(** The keyword arguments of [Task(...)]. *)
Record task_args := mkargs {
  arg_title : value;
  arg_description : value;
  arg_priority : value;
  arg_project_id : value;
  arg_user_id : Z
}.

Section Parser.

(** The alphanumeric code points above ASCII ([str.isalnum] there), a table
    of the Unicode database the interpreter ships. *)
Variable uni_alnum : char -> bool.

(** [\w]: alphanumeric or underscore. No whitespace code point is
    alphanumeric in the Unicode database; the definition says so for every
    table. *)
Definition is_word (c : char) : bool :=
  if N.ltb c 128
  then (in_range 48 57 c || in_range 65 90 c || in_range 97 122 c
        || N.eqb c 95)%N%bool
  else (uni_alnum c && negb (is_space c))%bool.

Definition is_word_at (c : option char) : bool :=
  match c with
  | Some c => is_word c
  | None => false
  end.

(** [\b] between the code point before the position and the one at it; the
    ends of the text count as non-word. *)
Definition at_boundary (prev next : option char) : bool :=
  xorb (is_word_at prev) (is_word_at next).

(** Length of the longest run of word characters at the head: [\w+] with
    nothing after it in the pattern takes it all. *)
Fixpoint word_run (s : str) : nat :=
  match s with
  | [] => 0
  | c :: s' => if is_word c then S (word_run s') else 0
  end.

(** One alternative followed by the closing [\b]. *)
Definition match_alt (ignorecase : bool) (prev : option char) (s : str)
    (alt : str) : option nat :=
  if lit_prefix ignorecase alt s then
    let n := length alt in
    let before := match n with O => prev | S k => nth_error s k end in
    if at_boundary before (nth_error s n) then Some n else None
  else None.

(** Alternatives are tried in order; the first that also passes the closing
    [\b] is taken. *)
Fixpoint first_alt (ignorecase : bool) (prev : option char) (s : str)
    (alts : list str) : option nat :=
  match alts with
  | [] => None
  | a :: rest =>
      match match_alt ignorecase prev s a with
      | Some n => Some n
      | None => first_alt ignorecase prev s rest
      end
  end.

(** A match of the pattern starting exactly at the head of [s], where
    [prev] is the code point before it in the whole text: the length of the
    match. *)
Definition re_match_at (ignorecase : bool) (re : regex)
    (prev : option char) (s : str) : option nat :=
  match re with
  | WordAlt alts =>
      if at_boundary prev (hd_error s)
      then first_alt ignorecase prev s alts
      else None
  | HashWord =>
      match s with
      | c :: s' =>
          if char_eqb c hash then
            match word_run s' with
            | O => None
            | S k => Some (S (S k))
            end
          else None
      | [] => None
      end
  end.

Definition matcher := option char -> str -> option nat.

(** The scan [re.search] does: the leftmost position with a match. *)
Fixpoint search_from (m : matcher) (prev : option char) (s : str)
    : option str :=
  match s with
  | [] => None
  | c :: s' =>
      match m prev s with
      | Some (S k) => Some (firstn (S k) s)
      | _ => search_from m (Some c) s'
      end
  end.

(** The scan [re.sub] with an empty replacement, [re.findall] and
    [str.replace] do: leftmost matches that do not overlap. [skip] counts
    the code points of the current match still to pass. *)
Fixpoint sub_from (m : matcher) (skip : nat) (prev : option char) (s : str)
    : str :=
  match s with
  | [] => []
  | c :: s' =>
      match skip with
      | S k => sub_from m k (Some c) s'
      | O =>
          match m prev s with
          | Some (S k) => sub_from m k (Some c) s'
          | _ => c :: sub_from m 0 (Some c) s'
          end
      end
  end.

Fixpoint finditer_from (m : matcher) (skip : nat) (prev : option char)
    (s : str) : list str :=
  match s with
  | [] => []
  | c :: s' =>
      match skip with
      | S k => finditer_from m k (Some c) s'
      | O =>
          match m prev s with
          | Some (S k) => firstn (S k) s :: finditer_from m k (Some c) s'
          | _ => finditer_from m 0 (Some c) s'
          end
      end
  end.

Definition re_search (ignorecase : bool) (re : regex) (s : str) : option str :=
  search_from (re_match_at ignorecase re) None s.

(** [re.sub(pattern, '', s)]. *)
Definition re_sub (ignorecase : bool) (re : regex) (s : str) : str :=
  sub_from (re_match_at ignorecase re) 0 None s.

Definition re_findall (ignorecase : bool) (re : regex) (s : str) : list str :=
  map (group1 re) (finditer_from (re_match_at ignorecase re) 0 None s).

Definition lit_match (old : str) : matcher :=
  fun _ s => if starts_with old s then Some (length old) else None.

(** [s.replace(old, '')] for a non-empty [old]. *)
Definition str_replace (old : str) (s : str) : str :=
  sub_from (lit_match old) 0 None s.

(** ** The parser *)

(** The handlers of [date_patterns] are lambdas of no argument or of one. *)
Inductive date_func :=
| Lambda0 (body : unit -> exc date)
| Lambda1 (body : str -> exc date).

(** Every lambda is callable. *)
Definition callable (f : date_func) : bool := true.

(** A call with the wrong number of arguments raises [TypeError]. *)
Definition call0 (f : date_func) : exc date :=
  match f with
  | Lambda0 body => body tt
  | Lambda1 _ => Raise TypeError
  end.

Definition call1 (f : date_func) (m : str) : exc date :=
  match f with
  | Lambda0 _ => Raise TypeError
  | Lambda1 body => body m
  end.

Definition days : list str :=
  map lit ["monday"; "tuesday"; "wednesday"; "thursday"; "friday";
           "saturday"; "sunday"]%string.

(** [now] stands for [datetime.now().date()], the same date at each of its
    uses within one call. *)
Definition get_next_weekday (now : date) (day_name : str) : exc date :=
  let today := now in
  let today_weekday := weekday today in
  target_weekday <- list_index days (str_lower day_name) ;;
  let days_ahead := (target_weekday - today_weekday)%Z in
  let days_ahead := if (days_ahead <=? 0)%Z then (days_ahead + 7)%Z
                    else days_ahead in
  date_replace_day today (day today + days_ahead)%Z.

(** The match object is passed as its group 1. *)
Definition date_patterns (now : date) : list (regex * date_func) :=
  [ (WordAlt [lit "today"], Lambda0 (fun _ => Ok now));
    (WordAlt [lit "tomorrow"],
     Lambda0 (fun _ => date_replace_day now (day now + 1)%Z));
    (WordAlt days, Lambda1 (fun m => get_next_weekday now m)) ].

(** The [for] loop over [date_patterns]: [break] after the first handler
    that returns, [pass] on any exception. *)
Fixpoint parse_dates (pats : list (regex * date_func)) (text : str)
    (result : ParseResult) : exc ParseResult :=
  match pats with
  | [] => Ok result
  | (pattern, f) :: rest =>
      match re_search true pattern text with
      | Some m =>
          try_except
            (d <- (if callable f then call0 f else call1 f (group1 pattern m)) ;;
             let result := set_due_date result d in
             Ok (set_title result (strip (re_sub true pattern text))))
            (parse_dates rest text result)
      | None => parse_dates rest text result
      end
  end.

Definition tag_pattern : regex := HashWord.

Definition parse_tags (text : str) (result : ParseResult) : ParseResult :=
  let tag_matches := re_findall false tag_pattern text in
  match tag_matches with
  | [] => result
  | _ :: _ =>
      let result := set_tags result tag_matches in
      set_title result (strip (re_sub false tag_pattern (title result)))
  end.

Definition parse_priority (text : str) (result : ParseResult) : ParseResult :=
  if str_in (lit "!!!") text then
    let result := set_priority result 3 in
    set_title result (strip (str_replace (lit "!!!") (title result)))
  else if str_in (lit "!!") text then
    let result := set_priority result 2 in
    set_title result (strip (str_replace (lit "!!") (title result)))
  else result.

Definition parse_natural_language (now : date) (text : str)
    : exc ParseResult :=
  let result := mkresult (strip text) None None None in
  result <- parse_dates (date_patterns now) text result ;;
  let result := parse_tags text result in
  let result := parse_priority text result in
  Ok result.

(** ** Predicates the statements use *)

Definition starts_clean (s : str) : bool :=
  match s with
  | [] => true
  | c :: _ => negb (is_space c)
  end.

(** No whitespace at either end. *)
Definition trimmed (s : str) : bool := starts_clean s && starts_clean (rev s).

(** The dictionary the function starts from. *)
Definition empty_result (text : str) : ParseResult :=
  mkresult (strip text) None None None.

(** Every hash followed by word characters, with the whole run of word
    characters after it, position by position. *)
Fixpoint hashtag_words (s : str) : list str :=
  match s with
  | [] => []
  | c :: s' =>
      if (char_eqb c hash && negb (Nat.eqb (word_run s') 0))%bool
      then firstn (word_run s') s' :: hashtag_words s'
      else hashtag_words s'
  end.

(** The priority the markers of a text stand for. *)
Definition priority_of (text : str) : option Z :=
  if str_in (lit "!!!") text then Some 3%Z
  else if str_in (lit "!!") text then Some 2%Z
  else None.

(** Alternatives that all begin with a lower-case ASCII letter. *)
Definition letter_led (alts : list str) : bool :=
  forallb (fun a : str => match a with
                          | [] => false
                          | x :: _ => in_range 97%N 122%N x
                          end) alts.

Definition lower (kw : str) : bool := forallb (in_range 97%N 122%N) kw.

(** The pattern letters whose only case variants are the letter and its
    ASCII capital: a to z without i, k and s. *)
Definition plain_char (p : char) : bool :=
  (in_range 97 122 p && negb (N.eqb p 105) && negb (N.eqb p 107)
   && negb (N.eqb p 115))%N%bool.

Definition plain (kw : str) : bool :=
  negb (Nat.eqb (length kw) 0) && forallb plain_char kw.

Definition found (o : option str) : bool :=
  match o with
  | Some _ => true
  | None => false
  end.

(** *** Whole words

    The text as its maximal runs of word characters and the single
    characters between them. *)

Inductive token :=
| Word (w : str)
| Sep (c : char).

Fixpoint tokens (s : str) : list token :=
  match s with
  | [] => []
  | c :: s' =>
      if is_word c then
        match tokens s' with
        | Word w :: ts => Word (c :: w) :: ts
        | ts => Word [c] :: ts
        end
      else Sep c :: tokens s'
  end.

Definition untoken (t : token) : str :=
  match t with
  | Word w => w
  | Sep c => [c]
  end.

Definition detok (ts : list token) : str := flat_map untoken ts.

Definition is_sep_head (ts : list token) : bool :=
  match ts with
  | Word _ :: _ => false
  | _ => true
  end.

(** Token lists that are the tokens of some text. *)
Fixpoint wf_tokens (ts : list token) : bool :=
  match ts with
  | [] => true
  | Word w :: ts' =>
      negb (Nat.eqb (length w) 0) && forallb is_word w && is_sep_head ts'
      && wf_tokens ts'
  | Sep c :: ts' => negb (is_word c) && wf_tokens ts'
  end.

(** [w] is [kw] up to case. *)
Definition ci_match (kw w : str) : bool :=
  lit_prefix true kw w && Nat.eqb (length w) (length kw).

Definition is_kw (kw : str) (t : token) : bool :=
  match t with
  | Word w => ci_match kw w
  | Sep _ => false
  end.

(** Some whole word of [s] is [kw] up to case. *)
Definition has_word (kw : str) (s : str) : bool :=
  existsb (is_kw kw) (tokens s).

(** [s] without its whole words equal to [kw] up to case. *)
Definition delete_word (kw : str) (s : str) : str :=
  detok (filter (fun t => negb (is_kw kw t)) (tokens s)).

(** The token list without each hash that stands right before a word, and
    without that word. [after_hash] marks the word to drop. *)
Fixpoint drop_tags (after_hash : bool) (ts : list token) : list token :=
  match ts with
  | [] => []
  | Word w :: ts' =>
      if after_hash then drop_tags false ts'
      else Word w :: drop_tags false ts'
  | Sep c :: ts' =>
      if char_eqb c hash && negb (is_sep_head ts')
      then drop_tags true ts'
      else Sep c :: drop_tags false ts'
  end.

(** Some hash stands right before a word. *)
Fixpoint has_tag_pair (ts : list token) : bool :=
  match ts with
  | [] => false
  | Sep c :: ts' =>
      (char_eqb c hash && negb (is_sep_head ts')) || has_tag_pair ts'
  | Word _ :: ts' => has_tag_pair ts'
  end.

(** Some whole word equal to [kw] up to case does not stand right after a
    hash. [after_hash] says that the token before is a hash. *)
Fixpoint free_word (kw : str) (after_hash : bool) (ts : list token) : bool :=
  match ts with
  | [] => false
  | Word w :: ts' =>
      (negb after_hash && ci_match kw w) || free_word kw false ts'
  | Sep c :: ts' => free_word kw (char_eqb c hash) ts'
  end.

Definition has_free_word (kw : str) (s : str) : bool :=
  free_word kw false (tokens s).

(** *** The stages in closed form *)

Definition today : str := lit "today".
Definition tomorrow : str := lit "tomorrow".

(** What the loop over [date_patterns] comes to ([parse_dates_stage]
    below). *)
Definition date_stage (now : date) (text : str) (r0 : ParseResult)
    : ParseResult :=
  if has_word today text then
    set_title (set_due_date r0 now) (strip (delete_word today text))
  else if has_word tomorrow text then
    match date_replace_day now (day now + 1)%Z with
    | Ok d => set_title (set_due_date r0 d) (strip (delete_word tomorrow text))
    | Raise _ => r0
    end
  else r0.

(** The phrase of the rule that sets the due date, when one does. *)
Definition date_phrase (text : str) : str :=
  if has_word today text then today else tomorrow.

(** What the tag stage does to a title, given the input. *)
Definition tag_strip (text : str) (t : str) : str :=
  match hashtag_words text with
  | [] => t
  | _ :: _ => strip (re_sub false tag_pattern t)
  end.

(** What the priority stage does to a title, given the input. *)
Definition priority_strip (text : str) (t : str) : str :=
  if str_in (lit "!!!") text then strip (str_replace (lit "!!!") t)
  else if str_in (lit "!!") text then strip (str_replace (lit "!!") t)
  else t.

(** The dictionary a call returns ([parse_unfold] below). *)
Definition parsed (now : date) (text : str) : ParseResult :=
  parse_priority text
    (parse_tags text (date_stage now text (empty_result text))).

(** Boolean comparisons on code points, as propositions. *)
Ltac b2p H :=
  repeat first [ rewrite orb_true_iff in H | rewrite andb_true_iff in H
               | rewrite N.eqb_eq in H | rewrite N.leb_le in H
               | rewrite N.ltb_lt in H ].

(** ** Predicates of the further properties *)

(** The dates the [date] constructor accepts. *)
Definition valid_date (d : date) : bool :=
  (Z.leb 1 (year d) && Z.leb (year d) 9999 && Z.leb 1 (month d)
   && Z.leb (month d) 12 && Z.leb 1 (day d)
   && Z.leb (day d) (days_in_month (year d) (month d)))%Z%bool.

(** The days [get_next_weekday] adds for the day of index [i]. *)
Definition days_ahead (now : date) (i : Z) : Z :=
  (if i - weekday now <=? 0 then i - weekday now + 7 else i - weekday now)%Z.

(** [a] is [b] with some characters left out. *)
Inductive subseq : str -> str -> Prop :=
| subseq_nil : subseq [] []
| subseq_keep (c : char) (a b : str) : subseq a b -> subseq (c :: a) (c :: b)
| subseq_drop (c : char) (a b : str) : subseq a b -> subseq a (c :: b).

(** The same code point, or the two cases of one ASCII letter. *)
Definition same_letter (c c' : char) : bool :=
  (N.eqb c c'
   || (in_range 65 90 c && N.eqb (c + 32) c')
   || (in_range 65 90 c' && N.eqb (c' + 32) c))%N%bool.

(** Two texts that differ in the case of ASCII letters only. *)
Definition same_text (s s' : str) : Prop :=
  Forall2 (fun c c' => same_letter c c' = true) s s'.

Definition same_prev (p p' : option char) : Prop :=
  match p, p' with
  | Some c, Some c' => same_letter c c' = true
  | None, None => True
  | _, _ => False
  end.

(** Two results that differ in the case of ASCII letters only. *)
Definition same_result (r r' : ParseResult) : Prop :=
  same_text (title r) (title r')
  /\ due_date r = due_date r'
  /\ priority r = priority r'
  /\ match tags r, tags r' with
     | Some l, Some l' => Forall2 same_text l l'
     | None, None => True
     | _, _ => False
     end.

(** A pattern that matches alike on texts that differ in case only. *)
Definition ignores_case (m : matcher) : Prop :=
  forall p p' s s', same_prev p p' -> same_text s s' -> m p s = m p' s'.

(** ** The callers of the parser *)

(** [parse_natural_language(v)]: its first statement calls [v.strip()],
    which only a string has. *)
Definition parse_value (now : date) (v : value) : outcome ParseResult :=
  match v with
  | VStr s =>
      match parse_natural_language now s with
      | Ok r => Return r
      | Raise e => Throw (Raised e)
      end
  | _ => Throw (AttributeError (type_name v) "strip")
  end.

(** The view behind [POST /tasks/parse], once [jwt_required] has let the
    request through; [get_json] is what [request.get_json()] returns or
    raises. *)
Definition parse_task (now : date) (get_json : outcome value) : response :=
  handle
    (data <~ get_json ;;
     invalid <~ missing data (lit "text") ;;
     if invalid then Return (error_body "Text is required", 400%Z)
     else
       text <~ value_item data (lit "text") ;;
       parsed <~ parse_value now text ;;
       Return (JsonOf (VDict [(lit "parsed", VDict (result_items parsed))]),
               200%Z)).

(** [create_task] from the construction of the [Task] on: the model
    classes and the database session are not part of this file, so what
    they make of the arguments and of the request dictionary (due date,
    tags, commit, the 201 answer) is left open. *)
Variable persist : task_args -> dict -> outcome response.

(** The view behind [POST /tasks]; [user_id] is what
    [int(get_jwt_identity())] returns or raises. The handler of the view
    calls [db.session.rollback()] before it answers 500; the session is
    not modelled, and the call is taken to return. *)
Definition create_task (now : date) (user_id : outcome Z)
    (get_json : outcome value) : response :=
  handle
    (user_id <~ user_id ;;
     data <~ get_json ;;
     invalid <~ missing data (lit "title") ;;
     if invalid then Return (error_body "Title is required", 400%Z)
     else
       use_nlp <~ value_get data (lit "use_nlp") (VBool false) ;;
       data <~ (if truthy use_nlp then
                  text <~ value_item data (lit "title") ;;
                  parsed <~ parse_value now text ;;
                  match data with
                  | VDict d => Return (dict_update d (result_items parsed))
                  | _ => Throw (AttributeError (type_name data) "update")
                  end
                else
                  match data with
                  | VDict d => Return d
                  | _ => Throw (AttributeError (type_name data) "get")
                  end) ;;
       title <~ value_item (VDict data) (lit "title") ;;
       description <~ value_get (VDict data) (lit "description") (VStr []) ;;
       priority <~ value_get (VDict data) (lit "priority") (VInt 1) ;;
       project_id <~ value_get (VDict data) (lit "project_id") VNone ;;
       persist (mkargs title description priority project_id user_id) data).

(** ** Whitespace trimming *)

Lemma lstrip_clean (s : str) : starts_clean (lstrip s) = true.
Proof.
  induction s as [|c s IH]; simpl; [reflexivity|].
  destruct (is_space c) eqn:E; [exact IH|].
  simpl. now rewrite E.
Qed.

Lemma lstrip_app (x y : str) (c : char) :
  is_space c = false -> lstrip (x ++ c :: y) = lstrip x ++ c :: y.
Proof.
  intros Hc. induction x as [|a x IH]; simpl.
  - now rewrite Hc.
  - destruct (is_space a); [exact IH|reflexivity].
Qed.

Lemma rstrip_keeps_head (s : str) :
  starts_clean s = true -> starts_clean (rstrip s) = true.
Proof.
  destruct s as [|c s]; [reflexivity|].
  simpl. intros Hc. apply negb_true_iff in Hc.
  unfold rstrip. simpl rev. rewrite lstrip_app by exact Hc.
  rewrite rev_app_distr. simpl. now rewrite Hc.
Qed.

Lemma trimmed_strip (s : str) : trimmed (strip s) = true.
Proof.
  unfold trimmed, strip. apply andb_true_intro. split.
  - apply rstrip_keeps_head, lstrip_clean.
  - unfold rstrip. rewrite rev_involutive. apply lstrip_clean.
Qed.

Lemma lstrip_all_space (s : str) : forallb is_space s = true -> lstrip s = [].
Proof.
  induction s as [|c s IH]; simpl; [reflexivity|].
  intros H. apply andb_true_iff in H as [Hc Hs]. rewrite Hc. auto.
Qed.

Lemma strip_all_space (s : str) : forallb is_space s = true -> strip s = [].
Proof.
  intros H. unfold strip. now rewrite lstrip_all_space.
Qed.

(** ** The date loop never raises *)

Lemma parse_dates_total (text : str) (pats : list (regex * date_func)) :
  forall r0, trimmed (title r0) = true ->
  exists r, parse_dates pats text r0 = Ok r /\ trimmed (title r) = true.
Proof.
  induction pats as [|[pattern f] rest IH]; intros r0 H0; simpl.
  - eauto.
  - destruct (re_search true pattern text) as [m|]; [|auto].
    unfold callable. destruct (call0 f) as [d|e]; simpl.
    + eexists; split; [reflexivity|]. simpl. apply trimmed_strip.
    + auto.
Qed.

Lemma parse_tags_trimmed (text : str) (r : ParseResult) :
  trimmed (title r) = true -> trimmed (title (parse_tags text r)) = true.
Proof.
  intros H. unfold parse_tags.
  destruct (re_findall false tag_pattern text); [exact H|].
  simpl. apply trimmed_strip.
Qed.

Lemma parse_priority_trimmed (text : str) (r : ParseResult) :
  trimmed (title r) = true -> trimmed (title (parse_priority text r)) = true.
Proof.
  intros H. unfold parse_priority.
  destruct (str_in (lit "!!!") text); [simpl; apply trimmed_strip|].
  destruct (str_in (lit "!!") text); [simpl; apply trimmed_strip|exact H].
Qed.

(** C2: for every input string and every reference date the call returns
    (it never raises), and the title of the result has no whitespace at
    either end. *)
Theorem C2_returns_trimmed_title (now : date) (text : str) :
  exists r, parse_natural_language now text = Ok r
            /\ trimmed (title r) = true.
Proof.
  unfold parse_natural_language.
  destruct (parse_dates_total text (date_patterns now)
              (mkresult (strip text) None None None)) as [r1 [E1 T1]].
  { simpl. apply trimmed_strip. }
  rewrite E1. simpl. eexists; split; [reflexivity|].
  now apply parse_priority_trimmed, parse_tags_trimmed.
Qed.


(** ** Substring tests and trimming *)

Lemma starts_with_app (p a b : str) :
  starts_with p a = true -> starts_with p (a ++ b) = true.
Proof.
  revert a. induction p as [|x p IH]; intros [|c a]; simpl; try easy.
  intros H. apply andb_true_iff in H as [H1 H2].
  rewrite H1. simpl. auto.
Qed.

Lemma str_in_app_l (p a b : str) :
  str_in p a = true -> str_in p (a ++ b) = true.
Proof.
  induction a as [|c a IH].
  - simpl. rewrite orb_false_r. destruct p; [|discriminate].
    intros _. destruct b; reflexivity.
  - simpl. intros H. apply orb_true_iff in H as [H|H].
    + change (c :: a ++ b) with ((c :: a) ++ b).
      rewrite (starts_with_app _ _ b H). reflexivity.
    + rewrite (IH H). apply orb_true_r.
Qed.

Lemma str_in_app_r (p a b : str) :
  str_in p b = true -> str_in p (a ++ b) = true.
Proof.
  intros H. induction a as [|c a IH]; [exact H|].
  simpl. rewrite IH. apply orb_true_r.
Qed.

Lemma lstrip_suffix (s : str) : exists x, s = x ++ lstrip s.
Proof.
  induction s as [|c s [x IH]]; [now exists []|].
  simpl. destruct (is_space c).
  - exists (c :: x). simpl. now f_equal.
  - now exists [].
Qed.

Lemma rstrip_prefix (s : str) : exists y, s = rstrip s ++ y.
Proof.
  destruct (lstrip_suffix (rev s)) as [x E].
  exists (rev x). unfold rstrip.
  rewrite <- rev_app_distr, <- E. symmetry. apply rev_involutive.
Qed.

Lemma str_in_strip (p s : str) :
  str_in p (strip s) = true -> str_in p s = true.
Proof.
  intros H. destruct (lstrip_suffix s) as [x Ex].
  destruct (rstrip_prefix (lstrip s)) as [y Ey].
  rewrite Ex. apply str_in_app_r. rewrite Ey. now apply str_in_app_l.
Qed.

(** ** [str.replace] of a run of one character leaves no such run *)

Lemma starts_with_repeat_le (b : char) (n j : nat) (s : str) :
  j <= n -> starts_with (repeat b n) s = true ->
  starts_with (repeat b j) s = true.
Proof.
  revert n s. induction j as [|j IH]; intros n s Hle H; [reflexivity|].
  destruct n as [|n]; [lia|]. destruct s as [|c s]; [discriminate|].
  simpl in *. apply andb_true_iff in H as [H1 H2].
  rewrite H1. simpl. apply (IH n); [lia|exact H2].
Qed.

Lemma sub_lit_cons (old : str) (p : option char) (c : char) (s : str) :
  sub_from (lit_match old) 0 p (c :: s) =
  if starts_with old (c :: s)
  then match length old with
       | O => c :: sub_from (lit_match old) 0 (Some c) s
       | S k => sub_from (lit_match old) k (Some c) s
       end
  else c :: sub_from (lit_match old) 0 (Some c) s.
Proof.
  cbn [sub_from]. unfold lit_match at 1.
  now destruct (starts_with old (c :: s)).
Qed.

Lemma replace_prefix_run (b : char) (n : nat) (s : str) :
  forall j p, j <= S n ->
  starts_with (repeat b j)
    (sub_from (lit_match (repeat b (S n))) 0 p s) = true ->
  starts_with (repeat b j) s = true.
Proof.
  induction s as [|c s IH]; intros j p Hj H.
  - exact H.
  - destruct j as [|j]; [reflexivity|].
    rewrite sub_lit_cons in H.
    destruct (starts_with (repeat b (S n)) (c :: s)) eqn:E.
    + eapply starts_with_repeat_le; eassumption.
    + cbn [repeat starts_with] in *.
      apply andb_true_iff in H as [H1 H2]. rewrite H1. simpl.
      eapply IH; [|exact H2]. lia.
Qed.

Lemma replace_run_gone (b : char) (n : nat) (s : str) :
  forall k p,
  str_in (repeat b (S n)) (sub_from (lit_match (repeat b (S n))) k p s) = false.
Proof.
  induction s as [|c s IH]; intros k p; [reflexivity|].
  destruct k as [|k]; [|apply IH].
  destruct (starts_with (repeat b (S n))
              (sub_from (lit_match (repeat b (S n))) 0 p (c :: s))) eqn:F.
  - pose proof (replace_prefix_run b n (c :: s) (S n) p (le_n _) F) as E.
    rewrite sub_lit_cons, E. cbn [repeat length]. apply IH.
  - revert F. rewrite sub_lit_cons.
    destruct (starts_with (repeat b (S n)) (c :: s)) eqn:E; intros F.
    + cbn [repeat length]. apply IH.
    + cbn [str_in]. rewrite F. apply IH.
Qed.

Lemma replace_gone_strip (b : char) (n : nat) (s : str) :
  str_in (repeat b (S n)) (strip (str_replace (repeat b (S n)) s)) = false.
Proof.
  apply not_true_is_false. intros H. apply str_in_strip in H.
  unfold str_replace in H. now rewrite replace_run_gone in H.
Qed.

(** ** Priority stage *)

Lemma parse_priority_field (text : str) (r : ParseResult) :
  priority r = None -> priority (parse_priority text r) = priority_of text.
Proof.
  intros H. unfold parse_priority, priority_of.
  destruct (str_in (lit "!!!") text); [reflexivity|].
  destruct (str_in (lit "!!") text); [reflexivity|exact H].
Qed.

Lemma parse_tags_priority (text : str) (r : ParseResult) :
  priority (parse_tags text r) = priority r.
Proof.
  unfold parse_tags. now destruct (re_findall false tag_pattern text).
Qed.

Lemma parse_dates_priority (text : str) (pats : list (regex * date_func)) :
  forall r0 r, parse_dates pats text r0 = Ok r -> priority r = priority r0.
Proof.
  induction pats as [|[pattern f] rest IH]; intros r0 r; simpl.
  - now intros [= <-].
  - destruct (re_search true pattern text) as [m|]; [|apply IH].
    unfold callable. destruct (call0 f) as [d|e]; simpl; [|apply IH].
    now intros [= <-].
Qed.


Lemma bangs3 : lit "!!!" = repeat bang 3.
Proof. reflexivity. Qed.

Lemma bangs2 : lit "!!" = repeat bang 2.
Proof. reflexivity. Qed.

Lemma parse_priority_cases (text : str) (r2 : ParseResult) :
  priority r2 = None ->
  let r := parse_priority text r2 in
  if str_in (lit "!!!") text
  then priority r = Some 3%Z
       /\ title r = strip (str_replace (lit "!!!") (title r2))
       /\ str_in (lit "!!!") (title r) = false
  else if str_in (lit "!!") text
  then priority r = Some 2%Z
       /\ title r = strip (str_replace (lit "!!") (title r2))
       /\ str_in (lit "!!") (title r) = false
  else priority r = None /\ title r = title r2.
Proof.
  intros H. unfold parse_priority. cbv zeta.
  destruct (str_in (lit "!!!") text).
  - cbn [priority title set_title set_priority].
    repeat split. rewrite bangs3. apply replace_gone_strip.
  - destruct (str_in (lit "!!") text).
    + cbn [priority title set_title set_priority].
      repeat split. rewrite bangs2. apply replace_gone_strip.
    + now split.
Qed.

(** C7: a "!!!" anywhere in the input gives priority 3 and a title with
    every "!!!" replaced away; otherwise a "!!" anywhere gives priority 2
    and a title with every "!!" replaced away; otherwise no priority. The
    title is the stripped replacement of the title left by the first two
    stages and holds no occurrence of the marker. "Urgent !!!" gives the
    title "Urgent" with priority 3. *)
Theorem C7_priority_marker (now : date) :
  (forall text, exists r1 r,
     parse_dates (date_patterns now) text (empty_result text) = Ok r1
     /\ parse_natural_language now text = Ok r
     /\ let r2 := parse_tags text r1 in
        if str_in (lit "!!!") text
        then priority r = Some 3%Z
             /\ title r = strip (str_replace (lit "!!!") (title r2))
             /\ str_in (lit "!!!") (title r) = false
        else if str_in (lit "!!") text
        then priority r = Some 2%Z
             /\ title r = strip (str_replace (lit "!!") (title r2))
             /\ str_in (lit "!!") (title r) = false
        else priority r = None /\ title r = title r2)
  /\ parse_natural_language now (lit "Urgent !!!")
     = Ok (mkresult (lit "Urgent") None None (Some 3%Z)).
Proof.
  split; [|reflexivity].
  intros text. unfold parse_natural_language.
  destruct (parse_dates_total text (date_patterns now) (empty_result text))
    as [r1 [E1 _]]; [apply trimmed_strip|].
  fold (empty_result text). rewrite E1. cbn [bind].
  exists r1, (parse_priority text (parse_tags text r1)).
  split; [reflexivity|]. split; [reflexivity|].
  apply parse_priority_cases.
  rewrite parse_tags_priority.
  now rewrite (parse_dates_priority _ _ _ _ E1).
Qed.

(** ** Blank input *)

Lemma search_from_none (m : matcher) (s : str) :
  (forall p c t, In c s -> m p (c :: t) = None) ->
  forall p, search_from m p s = None.
Proof.
  induction s as [|c s IH]; intros H p; [reflexivity|].
  cbn [search_from]. rewrite H by (left; reflexivity).
  apply IH. intros p' c' t Hin. apply H. now right.
Qed.

Lemma finditer_from_none (m : matcher) (s : str) :
  (forall p c t, In c s -> m p (c :: t) = None) ->
  forall p, finditer_from m 0 p s = [].
Proof.
  induction s as [|c s IH]; intros H p; [reflexivity|].
  cbn [finditer_from]. rewrite H by (left; reflexivity).
  apply IH. intros p' c' t Hin. apply H. now right.
Qed.

Lemma ci_eq_not_space (p c : char) :
  in_range 97%N 122%N p = true -> ci_eq p c = true -> is_space c = false.
Proof.
  unfold in_range, ci_eq, is_space, in_range. intros Hp H.
  apply not_true_is_false. intros Hs.
  b2p Hp. b2p H. b2p Hs. lia.
Qed.

Lemma word_alt_not_at_space (alts : list str) (p : option char) (c : char)
    (t : str) :
  letter_led alts = true -> is_space c = true ->
  re_match_at true (WordAlt alts) p (c :: t) = None.
Proof.
  intros Hl Hc. cbn [re_match_at].
  destruct (at_boundary p (hd_error (c :: t))); [|reflexivity].
  induction alts as [|a alts IH]; [reflexivity|].
  cbn [letter_led forallb] in Hl. apply andb_true_iff in Hl as [Ha Hl].
  cbn [first_alt]. unfold match_alt at 1.
  destruct a as [|x a]; [discriminate|].
  cbn [lit_prefix lit_eq].
  destruct (ci_eq x c) eqn:E.
  - rewrite (ci_eq_not_space _ _ Ha E) in Hc. discriminate.
  - cbn [andb]. now apply IH.
Qed.

Lemma hash_not_space (c : char) : is_space c = true -> char_eqb c hash = false.
Proof.
  unfold is_space, in_range, char_eqb, hash. intros Hs.
  apply not_true_is_false. intros H.
  b2p Hs. b2p H. lia.
Qed.

Lemma bang_not_space (c : char) : is_space c = true -> char_eqb bang c = false.
Proof.
  unfold is_space, in_range, char_eqb, bang. intros Hs.
  apply not_true_is_false. intros H.
  b2p Hs. b2p H. lia.
Qed.

Lemma no_bangs_in_blank (n : nat) (s : str) :
  forallb is_space s = true -> str_in (repeat bang (S n)) s = false.
Proof.
  induction s as [|c s IH]; [reflexivity|].
  cbn [forallb]. intros H. apply andb_true_iff in H as [Hc Hs].
  cbn [str_in repeat starts_with]. rewrite (bang_not_space _ Hc).
  now apply IH.
Qed.

(** C10: the parser accepts blank input. For every input made of
    whitespace only, the empty string included, the call returns a result
    with an empty title and no due date, priority or tags. *)
Theorem C10_blank_input (now : date) (text : str) :
  forallb is_space text = true ->
  parse_natural_language now text = Ok (mkresult [] None None None).
Proof.
  intros H. rewrite forallb_forall in H.
  assert (Hd : forall alts, letter_led alts = true ->
            re_search true (WordAlt alts) text = None).
  { intros alts Hl. apply search_from_none. intros p c t Hin.
    apply word_alt_not_at_space; auto. }
  unfold parse_natural_language. rewrite strip_all_space
    by (now apply forallb_forall).
  cbn [date_patterns parse_dates].
  rewrite !Hd by reflexivity. cbn [bind].
  unfold parse_tags, re_findall.
  rewrite finditer_from_none.
  2:{ intros p c t Hin. cbn. now rewrite (hash_not_space _ (H _ Hin)). }
  cbn [map]. unfold parse_priority.
  rewrite bangs3, bangs2, !no_bangs_in_blank by (now apply forallb_forall).
  reflexivity.
Qed.


(** ** Hashtags *)

Lemma hash_not_word (c : char) : char_eqb c hash = true -> is_word c = false.
Proof.
  unfold char_eqb. intros H. apply N.eqb_eq in H. now subst c.
Qed.

Lemma finditer_hash (s : str) :
  forall k p, k <= word_run s ->
  map (group1 HashWord) (finditer_from (re_match_at false HashWord) k p s)
  = hashtag_words s.
Proof.
  induction s as [|c s IH]; intros k p Hk; [reflexivity|].
  destruct k as [|k].
  - cbn [finditer_from re_match_at hashtag_words].
    destruct (char_eqb c hash) eqn:Ec; cbn [andb]; [|apply IH; lia].
    destruct (word_run s) as [|j] eqn:Ej; cbn [Nat.eqb negb].
    + apply IH. lia.
    + cbn [map group1 firstn tl]. f_equal. apply IH. lia.
  - cbn [word_run] in Hk. destruct (is_word c) eqn:Ew; [|lia].
    cbn [finditer_from hashtag_words].
    destruct (char_eqb c hash) eqn:Ec.
    + apply hash_not_word in Ec. congruence.
    + cbn [andb]. apply IH. lia.
Qed.

Lemma re_findall_hash (s : str) :
  re_findall false tag_pattern s = hashtag_words s.
Proof. unfold re_findall. apply finditer_hash. lia. Qed.

Lemma word_run_skip (s : str) : word_run (skipn (word_run s) s) = 0.
Proof.
  induction s as [|c s IH]; [reflexivity|].
  cbn [word_run]. destruct (is_word c) eqn:E; cbn [skipn]; [exact IH|].
  cbn [word_run]. now rewrite E.
Qed.

Lemma sub_hash_head (s : str) :
  forall k p, word_run (skipn k s) = 0 ->
  word_run (sub_from (re_match_at false HashWord) k p s) = 0.
Proof.
  induction s as [|c s IH]; intros k p H; [reflexivity|].
  destruct k as [|k]; [|apply IH; exact H].
  cbn [skipn word_run] in H. destruct (is_word c) eqn:Ew; [discriminate|].
  cbn [sub_from re_match_at].
  destruct (char_eqb c hash); [|cbn [word_run]; now rewrite Ew].
  destruct (word_run s) as [|j] eqn:Ej; [cbn [word_run]; now rewrite Ew|].
  apply IH. rewrite <- Ej. apply word_run_skip.
Qed.

Lemma sub_hash_clean (s : str) :
  forall k p,
  hashtag_words (sub_from (re_match_at false HashWord) k p s) = [].
Proof.
  induction s as [|c s IH]; intros k p; [reflexivity|].
  destruct k as [|k]; [|apply IH].
  cbn [sub_from re_match_at].
  destruct (char_eqb c hash) eqn:Ec.
  - destruct (word_run s) as [|j] eqn:Ej; [|apply IH].
    cbn [hashtag_words]. rewrite Ec, sub_hash_head by exact Ej.
    cbn. apply IH.
  - cbn [hashtag_words]. rewrite Ec. cbn [andb]. apply IH.
Qed.

Lemma hashtag_words_suffix (x s : str) :
  hashtag_words (x ++ s) = [] -> hashtag_words s = [].
Proof.
  induction x as [|c x IH]; [auto|].
  cbn [app hashtag_words].
  destruct (char_eqb c hash && negb (word_run (x ++ s) =? 0)); [discriminate|].
  exact IH.
Qed.

Lemma word_run_app (s y : str) : word_run s <> 0 -> word_run (s ++ y) <> 0.
Proof.
  destruct s as [|c s]; [easy|]. cbn [app word_run].
  now destruct (is_word c).
Qed.

Lemma hashtag_words_prefix (s y : str) :
  hashtag_words (s ++ y) = [] -> hashtag_words s = [].
Proof.
  induction s as [|c s IH]; [reflexivity|].
  cbn [app hashtag_words].
  destruct (char_eqb c hash); cbn [andb]; [|exact IH].
  destruct (word_run s =? 0) eqn:E.
  - destruct (word_run (s ++ y) =? 0); cbn [negb]; [exact IH|discriminate].
  - apply Nat.eqb_neq in E. apply (word_run_app _ y) in E.
    apply Nat.eqb_neq in E. rewrite E. discriminate.
Qed.

Lemma hashtag_words_strip (s : str) :
  hashtag_words s = [] -> hashtag_words (strip s) = [].
Proof.
  intros H. destruct (lstrip_suffix s) as [x Ex].
  destruct (rstrip_prefix (lstrip s)) as [y Ey].
  rewrite Ex in H. apply hashtag_words_suffix in H.
  rewrite Ey in H. now apply hashtag_words_prefix in H.
Qed.

Lemma parse_priority_tags (text : str) (r : ParseResult) :
  tags (parse_priority text r) = tags r.
Proof.
  unfold parse_priority.
  destruct (str_in (lit "!!!") text); [reflexivity|].
  now destruct (str_in (lit "!!") text).
Qed.

Lemma parse_dates_tags (text : str) (pats : list (regex * date_func)) :
  forall r0 r, parse_dates pats text r0 = Ok r -> tags r = tags r0.
Proof.
  induction pats as [|[pattern f] rest IH]; intros r0 r; simpl.
  - now intros [= <-].
  - destruct (re_search true pattern text) as [m|]; [|apply IH].
    unfold callable. destruct (call0 f) as [d|e]; simpl; [|apply IH].
    now intros [= <-].
Qed.

Lemma parse_tags_cases (text : str) (r1 : ParseResult) :
  tags r1 = None ->
  let r2 := parse_tags text r1 in
  match hashtag_words text with
  | [] => r2 = r1
  | l => tags r2 = Some l
         /\ title r2 = strip (re_sub false tag_pattern (title r1))
         /\ hashtag_words (title r2) = []
  end.
Proof.
  intros H. unfold parse_tags. rewrite re_findall_hash. cbv zeta.
  destruct (hashtag_words text) as [|w l]; [reflexivity|].
  cbn [tags title set_title set_tags]. repeat split.
  apply hashtag_words_strip, sub_hash_clean.
Qed.


(** ** Tokens *)

Lemma detok_tokens (s : str) : detok (tokens s) = s.
Proof.
  induction s as [|c s IH]; [reflexivity|].
  cbn [tokens]. destruct (is_word c).
  - destruct (tokens s) as [|[w|d] ts]; cbn in *; now rewrite <- IH.
  - unfold detok in *. cbn. now rewrite IH.
Qed.

Lemma wf_tokens_tokens (s : str) : wf_tokens (tokens s) = true.
Proof.
  induction s as [|c s IH]; [reflexivity|].
  cbn [tokens]. destruct (is_word c) eqn:E.
  - destruct (tokens s) as [|[w|d] ts]; cbn in *; rewrite ?E; cbn; auto.
    rewrite !andb_true_iff in IH. destruct IH as [[[_ H1] H2] H3].
    now rewrite H1, H2, H3.
  - cbn. now rewrite E, IH.
Qed.

Lemma tokens_word_app (w : str) (ts : list token) :
  w <> [] -> forallb is_word w = true -> is_sep_head ts = true ->
  tokens (detok ts) = ts ->
  tokens (w ++ detok ts) = Word w :: ts.
Proof.
  intros Hn Hw Hs Ht. induction w as [|c w IH]; [congruence|].
  cbn [forallb] in Hw. apply andb_true_iff in Hw as [Hc Hw].
  cbn [app tokens]. rewrite Hc. destruct w as [|d w].
  - cbn [app]. rewrite Ht. now destruct ts as [|[v|e] ts].
  - now rewrite IH.
Qed.

Lemma tokens_detok (ts : list token) :
  wf_tokens ts = true -> tokens (detok ts) = ts.
Proof.
  induction ts as [|[w|c] ts IH]; [reflexivity| |]; cbn [wf_tokens]; intros H.
  - rewrite !andb_true_iff in H. destruct H as [[[H0 H1] H2] H3].
    apply tokens_word_app; auto.
    destruct w; [discriminate|congruence].
  - apply andb_true_iff in H as [Hc H]. apply negb_true_iff in Hc.
    change (detok (Sep c :: ts)) with (c :: detok ts).
    cbn [tokens]. now rewrite Hc, IH.
Qed.

Lemma wf_tokens_filter (f : token -> bool) (ts : list token) :
  (forall c, f (Sep c) = true) -> wf_tokens ts = true ->
  wf_tokens (filter f ts) = true.
Proof.
  intros Hf. induction ts as [|[w|c] ts IH]; [reflexivity| |];
    cbn [wf_tokens filter]; intros H.
  - rewrite !andb_true_iff in H. destruct H as [[[H0 H1] H2] H3].
    destruct (f (Word w)); [|auto].
    cbn [wf_tokens]. rewrite H0, H1, IH by exact H3.
    destruct ts as [|[v|e] ts]; [reflexivity|discriminate|].
    cbn [filter]. now rewrite Hf.
  - apply andb_true_iff in H as [Hc H]. rewrite Hf.
    cbn [wf_tokens]. now rewrite Hc, IH.
Qed.


(** ** The whole-word patterns on tokens *)

Lemma plain_ci_word (p c : char) :
  plain_char p = true -> ci_eq p c = true -> is_word c = true.
Proof.
  unfold plain_char, ci_eq, is_word, in_range. intros Hp H.
  rewrite !andb_true_iff, !negb_true_iff, !N.eqb_neq in Hp.
  b2p Hp. b2p H.
  assert (E : (c <? 128)%N = true) by (apply N.ltb_lt; lia).
  rewrite E. unfold in_range.
  assert (D : c = p \/ (c + 32)%N = p) by lia.
  destruct D as [D|D].
  - assert (F : ((97 <=? c) && (c <=? 122))%N%bool = true)
      by (apply andb_true_iff; split; apply N.leb_le; lia).
    rewrite F. now rewrite !orb_true_r.
  - assert (F : ((65 <=? c) && (c <=? 90))%N%bool = true)
      by (apply andb_true_iff; split; apply N.leb_le; lia).
    rewrite F. now rewrite !orb_true_r.
Qed.

Lemma lit_prefix_run (kw s : str) :
  forallb plain_char kw = true -> lit_prefix true kw s = true ->
  length kw <= word_run s.
Proof.
  revert s. induction kw as [|p kw IH]; intros s Hp H; [cbn; lia|].
  destruct s as [|c s]; [discriminate|].
  cbn [forallb lit_prefix lit_eq] in *.
  apply andb_true_iff in Hp as [Hp Hk]. apply andb_true_iff in H as [Hc H].
  cbn [word_run length]. rewrite (plain_ci_word _ _ Hp Hc).
  specialize (IH s Hk H). lia.
Qed.

Lemma word_run_before (s : str) :
  forall n, S n <= word_run s -> is_word_at (nth_error s n) = true.
Proof.
  induction s as [|c s IH]; intros n H; cbn [word_run] in H; [lia|].
  destruct (is_word c) eqn:E; [|lia].
  destruct n as [|n]; [exact E|]. apply IH. lia.
Qed.

Lemma word_run_after (s : str) :
  forall n, n <= word_run s ->
  is_word_at (nth_error s n) = negb (Nat.eqb (word_run s) n).
Proof.
  induction s as [|c s IH]; intros n H; cbn [word_run] in *.
  - now replace n with 0 by lia.
  - destruct (is_word c) eqn:E.
    + destruct n as [|n]; [exact E|]. cbn [nth_error Nat.eqb]. apply IH. lia.
    + replace n with 0 by lia. exact E.
Qed.

(** What [\b(kw)\b] with [re.IGNORECASE] matches at a position. *)
Lemma word_match_at (kw : str) (prev : option char) (s : str) :
  plain kw = true ->
  re_match_at true (WordAlt [kw]) prev s =
  if is_word_at prev then None
  else if lit_prefix true kw s && Nat.eqb (word_run s) (length kw)
       then Some (length kw) else None.
Proof.
  unfold plain. intros Hp. apply andb_true_iff in Hp as [Hn Hp].
  cbn [re_match_at first_alt]. unfold match_alt.
  destruct (lit_prefix true kw s) eqn:E.
  - pose proof (lit_prefix_run _ _ Hp E) as Hr.
    destruct kw as [|p kw]; [discriminate|]. cbn [length] in *.
    assert (Hh : is_word_at (hd_error s) = true).
    { destruct s as [|c s]; [discriminate|].
      apply (word_run_before (c :: s) 0). lia. }
    unfold at_boundary. rewrite Hh, (word_run_before _ _ Hr).
    rewrite (word_run_after _ _ Hr).
    destruct (is_word_at prev); cbn; [reflexivity|].
    now destruct (word_run s =? S (length kw)).
  - cbn. destruct (at_boundary prev (hd_error s)), (is_word_at prev);
      reflexivity.
Qed.

Lemma word_match_none_in_word (kw : str) (prev : option char) (s : str) :
  plain kw = true -> is_word_at prev = true ->
  re_match_at true (WordAlt [kw]) prev s = None.
Proof. intros Hp H. now rewrite word_match_at, H. Qed.

Lemma word_match_none_at_sep (kw : str) (prev : option char) (s : str) :
  plain kw = true -> word_run s = 0 ->
  re_match_at true (WordAlt [kw]) prev s = None.
Proof.
  intros Hp H. rewrite word_match_at by exact Hp. rewrite H.
  unfold plain in Hp. apply andb_true_iff in Hp as [Hn _].
  destruct (is_word_at prev); [reflexivity|].
  destruct kw; [discriminate|]. cbn [length Nat.eqb].
  now rewrite andb_false_r.
Qed.

Lemma word_run_word_app (w rest : str) :
  forallb is_word w = true -> word_run (w ++ rest) = length w + word_run rest.
Proof.
  induction w as [|c w IH]; [reflexivity|].
  cbn [forallb app word_run length]. intros H.
  apply andb_true_iff in H as [Hc Hw]. rewrite Hc, IH by exact Hw. lia.
Qed.

Lemma word_run_detok (ts : list token) :
  wf_tokens ts = true -> is_sep_head ts = true -> word_run (detok ts) = 0.
Proof.
  destruct ts as [|[w|c] ts]; [reflexivity|discriminate|].
  cbn [wf_tokens]. intros H _. apply andb_true_iff in H as [Hc _].
  apply negb_true_iff in Hc.
  change (detok (Sep c :: ts)) with (c :: detok ts).
  cbn [word_run]. now rewrite Hc.
Qed.

Lemma lit_prefix_app (ic : bool) (kw w rest : str) :
  length kw <= length w ->
  lit_prefix ic kw (w ++ rest) = lit_prefix ic kw w.
Proof.
  revert w. induction kw as [|p kw IH]; intros w H; [reflexivity|].
  destruct w as [|c w]; cbn [length] in H; [lia|].
  cbn [app lit_prefix]. rewrite IH by lia. reflexivity.
Qed.

(** At a whole word the pattern matches exactly when the word is the
    keyword up to case. *)
Lemma word_match_token (kw : str) (prev : option char) (w rest : str) :
  plain kw = true -> forallb is_word w = true -> word_run rest = 0 ->
  is_word_at prev = false ->
  re_match_at true (WordAlt [kw]) prev (w ++ rest) =
  if ci_match kw w then Some (length w) else None.
Proof.
  intros Hp Hw Hr Hprev. rewrite word_match_at, Hprev by exact Hp.
  rewrite word_run_word_app, Hr, Nat.add_0_r by exact Hw.
  unfold ci_match. destruct (length w =? length kw) eqn:E.
  - apply Nat.eqb_eq in E. rewrite lit_prefix_app by lia.
    rewrite E. now destruct (lit_prefix true kw w).
  - now rewrite !andb_false_r.
Qed.

Lemma sub_from_skip (m : matcher) (w rest : str) :
  forall p, exists p',
  sub_from m (length w) p (w ++ rest) = sub_from m 0 p' rest.
Proof.
  induction w as [|c w IH]; intros p; [now exists p|].
  cbn [length app sub_from]. apply IH.
Qed.

Lemma sub_word_sep_indep (kw : str) (p p' : option char) (s : str) :
  plain kw = true -> word_run s = 0 ->
  sub_from (re_match_at true (WordAlt [kw])) 0 p s
  = sub_from (re_match_at true (WordAlt [kw])) 0 p' s.
Proof.
  intros Hp H. destruct s as [|c s]; [reflexivity|].
  cbn [sub_from]. now rewrite !word_match_none_at_sep.
Qed.

(** A word the pattern does not match at its start is passed unchanged. *)
Lemma sub_word_through (kw : str) (w rest : str) :
  plain kw = true -> forallb is_word w = true ->
  forall p,
  is_word_at p = true
  \/ re_match_at true (WordAlt [kw]) p (w ++ rest) = None ->
  exists p',
  sub_from (re_match_at true (WordAlt [kw])) 0 p (w ++ rest)
  = w ++ sub_from (re_match_at true (WordAlt [kw])) 0 p' rest.
Proof.
  intros Hp. induction w as [|c w IH]; intros Hw p H; [now exists p|].
  cbn [forallb] in Hw. apply andb_true_iff in Hw as [Hc Hw].
  assert (E : re_match_at true (WordAlt [kw]) p ((c :: w) ++ rest) = None).
  { destruct H as [H|H]; [now apply word_match_none_in_word|exact H]. }
  cbn [app sub_from] in *. rewrite E.
  destruct (IH Hw (Some c)) as [p' E']; [now left|].
  exists p'. now rewrite E'.
Qed.

Lemma sub_word_tokens (kw : str) (ts : list token) :
  plain kw = true -> wf_tokens ts = true ->
  forall p, (is_sep_head ts = false -> is_word_at p = false) ->
  sub_from (re_match_at true (WordAlt [kw])) 0 p (detok ts)
  = detok (filter (fun t => negb (is_kw kw t)) ts).
Proof.
  intros Hp. induction ts as [|[w|c] ts IH]; intros Hwf p Hprev;
    [reflexivity| |]; cbn [wf_tokens] in Hwf.
  - rewrite !andb_true_iff in Hwf. destruct Hwf as [[[H0 H1] H2] H3].
    specialize (Hprev eq_refl).
    pose proof (word_run_detok _ H3 H2) as Hr.
    change (detok (Word w :: ts)) with (w ++ detok ts).
    cbn [filter is_kw].
    pose proof (word_match_token kw p w (detok ts) Hp H1 Hr Hprev) as M.
    destruct (ci_match kw w) eqn:E; cbn [negb].
    + destruct w as [|c w]; [discriminate|].
      cbn [app sub_from] in *. rewrite M. cbn [length].
      destruct (sub_from_skip (re_match_at true (WordAlt [kw])) w (detok ts)
                  (Some c)) as [p' E'].
      rewrite E'. rewrite (sub_word_sep_indep kw p' None) by assumption.
      apply IH; [exact H3|]. intros F. congruence.
    + destruct (sub_word_through kw w (detok ts) Hp H1 p) as [p' E'];
        [now right|].
      rewrite E'. change (detok (Word w :: ?l)) with (w ++ detok l).
      f_equal. rewrite (sub_word_sep_indep kw p' None) by assumption.
      apply IH; [exact H3|]. intros F. congruence.
  - apply andb_true_iff in Hwf as [Hc Hwf]. apply negb_true_iff in Hc.
    change (detok (Sep c :: ts)) with (c :: detok ts).
    cbn [filter is_kw negb sub_from].
    rewrite word_match_none_at_sep; [|exact Hp|cbn [word_run]; now rewrite Hc].
    change (detok (Sep c :: ?l)) with (c :: detok l). f_equal.
    apply IH; [exact Hwf|]. intros _. exact Hc.
Qed.

(** [re.sub] of a whole-word pattern deletes the whole words equal to the
    keyword up to case, and nothing else. *)
Lemma re_sub_word (kw : str) (s : str) :
  plain kw = true -> re_sub true (WordAlt [kw]) s = delete_word kw s.
Proof.
  intros Hp. unfold re_sub, delete_word.
  rewrite <- (detok_tokens s) at 1.
  apply sub_word_tokens; [exact Hp|apply wf_tokens_tokens|reflexivity].
Qed.

Lemma search_word_sep_indep (kw : str) (p p' : option char) (s : str) :
  plain kw = true -> word_run s = 0 ->
  search_from (re_match_at true (WordAlt [kw])) p s
  = search_from (re_match_at true (WordAlt [kw])) p' s.
Proof.
  intros Hp H. destruct s as [|c s]; [reflexivity|].
  cbn [search_from]. now rewrite !word_match_none_at_sep.
Qed.

Lemma search_word_through (kw : str) (w rest : str) :
  plain kw = true -> forallb is_word w = true ->
  forall p,
  is_word_at p = true
  \/ re_match_at true (WordAlt [kw]) p (w ++ rest) = None ->
  exists p',
  search_from (re_match_at true (WordAlt [kw])) p (w ++ rest)
  = search_from (re_match_at true (WordAlt [kw])) p' rest.
Proof.
  intros Hp. induction w as [|c w IH]; intros Hw p H; [now exists p|].
  cbn [forallb] in Hw. apply andb_true_iff in Hw as [Hc Hw].
  assert (E : re_match_at true (WordAlt [kw]) p ((c :: w) ++ rest) = None).
  { destruct H as [H|H]; [now apply word_match_none_in_word|exact H]. }
  cbn [app search_from] in *. rewrite E.
  apply (IH Hw (Some c)). now left.
Qed.

Lemma search_word_tokens (kw : str) (ts : list token) :
  plain kw = true -> wf_tokens ts = true ->
  forall p, (is_sep_head ts = false -> is_word_at p = false) ->
  found (search_from (re_match_at true (WordAlt [kw])) p (detok ts))
  = existsb (is_kw kw) ts.
Proof.
  intros Hp. induction ts as [|[w|c] ts IH]; intros Hwf p Hprev;
    [reflexivity| |]; cbn [wf_tokens] in Hwf.
  - rewrite !andb_true_iff in Hwf. destruct Hwf as [[[H0 H1] H2] H3].
    specialize (Hprev eq_refl).
    pose proof (word_run_detok _ H3 H2) as Hr.
    change (detok (Word w :: ts)) with (w ++ detok ts).
    cbn [existsb is_kw].
    pose proof (word_match_token kw p w (detok ts) Hp H1 Hr Hprev) as M.
    destruct (ci_match kw w) eqn:E; cbn [orb].
    + destruct w as [|c w]; [discriminate|].
      cbn [app search_from] in *. now rewrite M.
    + destruct (search_word_through kw w (detok ts) Hp H1 p) as [p' E'];
        [now right|].
      rewrite E', (search_word_sep_indep kw p' None) by assumption.
      apply IH; [exact H3|]. intros F. congruence.
  - apply andb_true_iff in Hwf as [Hc Hwf]. apply negb_true_iff in Hc.
    change (detok (Sep c :: ts)) with (c :: detok ts).
    cbn [existsb is_kw orb search_from].
    rewrite word_match_none_at_sep; [|exact Hp|cbn [word_run]; now rewrite Hc].
    apply IH; [exact Hwf|]. intros _. exact Hc.
Qed.

(** [re.search] of a whole-word pattern finds a match exactly when some
    whole word of the text is the keyword up to case. *)
Lemma re_search_word (kw : str) (s : str) :
  plain kw = true -> found (re_search true (WordAlt [kw]) s) = has_word kw s.
Proof.
  intros Hp. unfold re_search, has_word.
  rewrite <- (detok_tokens s) at 1.
  apply search_word_tokens; [exact Hp|apply wf_tokens_tokens|reflexivity].
Qed.

Lemma tokens_delete_word (kw : str) (s : str) :
  tokens (delete_word kw s) = filter (fun t => negb (is_kw kw t)) (tokens s).
Proof.
  unfold delete_word. apply tokens_detok, wf_tokens_filter.
  - reflexivity.
  - apply wf_tokens_tokens.
Qed.

Lemma has_word_delete_same (kw : str) (s : str) :
  has_word kw (delete_word kw s) = false.
Proof.
  unfold has_word. rewrite tokens_delete_word.
  induction (tokens s) as [|t ts IH]; [reflexivity|].
  cbn [filter]. destruct (is_kw kw t) eqn:E; cbn [negb]; [exact IH|].
  cbn [existsb]. now rewrite E.
Qed.

Lemma has_word_delete_mono (kw kw' : str) (s : str) :
  has_word kw' (delete_word kw s) = true -> has_word kw' s = true.
Proof.
  unfold has_word. rewrite tokens_delete_word.
  induction (tokens s) as [|t ts IH]; [easy|].
  cbn [filter existsb]. destruct (negb (is_kw kw t)); cbn [existsb].
  - intros H. apply orb_true_iff in H as [H|H]; [now rewrite H|].
    rewrite (IH H). apply orb_true_r.
  - intros H. rewrite (IH H). apply orb_true_r.
Qed.

(** *** Trimming and tokens *)

Lemma space_not_word (c : char) : is_space c = true -> is_word c = false.
Proof.
  intros H. unfold is_word. destruct (c <? 128)%N eqn:E.
  - unfold is_space, in_range in *. apply not_true_is_false. intros F.
    b2p H. b2p F. lia.
  - rewrite H. apply andb_false_r.
Qed.

Lemma lstrip_blank_prefix (s : str) :
  exists x, s = x ++ lstrip s /\ forallb is_space x = true.
Proof.
  induction s as [|c s [x [E F]]]; [now exists []|].
  cbn [lstrip]. destruct (is_space c) eqn:Ec.
  - exists (c :: x). cbn. rewrite Ec, F. split; [now f_equal|reflexivity].
  - now exists [].
Qed.

Lemma rstrip_blank_suffix (s : str) :
  exists y, s = rstrip s ++ y /\ forallb is_space y = true.
Proof.
  destruct (lstrip_blank_prefix (rev s)) as [x [E F]].
  exists (rev x). unfold rstrip. split.
  - rewrite <- rev_app_distr, <- E. symmetry. apply rev_involutive.
  - rewrite forallb_forall in *. intros c Hc. apply F. now apply in_rev.
Qed.

Lemma tokens_blank_prefix (x t : str) :
  forallb is_space x = true -> tokens (x ++ t) = map Sep x ++ tokens t.
Proof.
  induction x as [|c x IH]; [reflexivity|].
  cbn [forallb]. intros H. apply andb_true_iff in H as [Hc Hx].
  cbn [app tokens map]. rewrite (space_not_word _ Hc). now rewrite IH.
Qed.

Lemma tokens_blank_suffix (t y : str) :
  forallb is_space y = true -> tokens (t ++ y) = tokens t ++ map Sep y.
Proof.
  intros Hy. induction t as [|c t IH].
  - pose proof (tokens_blank_prefix y [] Hy) as E.
    rewrite !app_nil_r in E. exact E.
  - cbn [app tokens]. rewrite IH. destruct (is_word c); [|reflexivity].
    destruct (tokens t) as [|[w|d] ts]; try reflexivity.
    cbn [app]. now destruct y.
Qed.

Lemma tokens_strip (s : str) :
  exists x y, tokens s = map Sep x ++ tokens (strip s) ++ map Sep y.
Proof.
  destruct (lstrip_blank_prefix s) as [x [Ex Fx]].
  destruct (rstrip_blank_suffix (lstrip s)) as [y [Ey Fy]].
  exists x, y. rewrite Ex at 1. rewrite tokens_blank_prefix by exact Fx.
  f_equal. rewrite Ey at 1. now apply tokens_blank_suffix.
Qed.

Lemma existsb_kw_seps (kw : str) (x : str) :
  existsb (is_kw kw) (map Sep x) = false.
Proof. induction x; [reflexivity|exact IHx]. Qed.

Lemma has_word_strip (kw : str) (s : str) :
  has_word kw (strip s) = has_word kw s.
Proof.
  unfold has_word. destruct (tokens_strip s) as [x [y E]].
  rewrite E, !existsb_app, !existsb_kw_seps.
  now rewrite orb_false_r.
Qed.


(** *** Hashtags and tokens *)

Lemma word_not_hash (c : char) : is_word c = true -> char_eqb c hash = false.
Proof.
  intros H. destruct (char_eqb c hash) eqn:E; [|reflexivity].
  apply hash_not_word in E. congruence.
Qed.

Lemma sub_hash_indep (s : str) :
  forall k p p',
  sub_from (re_match_at false HashWord) k p s
  = sub_from (re_match_at false HashWord) k p' s.
Proof.
  induction s as [|c s IH]; intros k p p'; [reflexivity|].
  destruct k as [|k]; cbn [sub_from re_match_at]; [|apply IH].
  reflexivity.
Qed.

Lemma sub_hash_through (w rest : str) :
  forallb is_word w = true ->
  forall p,
  sub_from (re_match_at false HashWord) 0 p (w ++ rest)
  = w ++ sub_from (re_match_at false HashWord) 0 None rest.
Proof.
  induction w as [|c w IH]; intros Hw p; [apply sub_hash_indep|].
  cbn [forallb] in Hw. apply andb_true_iff in Hw as [Hc Hw].
  cbn [app sub_from re_match_at]. rewrite (word_not_hash _ Hc).
  now rewrite IH.
Qed.

Lemma word_run_word_head (w : str) (ts : list token) :
  wf_tokens (Word w :: ts) = true ->
  word_run (detok (Word w :: ts)) = length w /\ length w <> 0.
Proof.
  cbn [wf_tokens]. intros H. rewrite !andb_true_iff in H.
  destruct H as [[[H0 H1] H2] H3].
  change (detok (Word w :: ts)) with (w ++ detok ts).
  rewrite word_run_word_app, word_run_detok by assumption.
  split; [lia|]. destruct w; [discriminate|cbn; lia].
Qed.

Lemma sub_hash_tokens (ts : list token) :
  wf_tokens ts = true ->
  (forall p, sub_from (re_match_at false HashWord) 0 p (detok ts)
             = detok (drop_tags false ts))
  /\ (forall p w ts', ts = Word w :: ts' ->
        sub_from (re_match_at false HashWord) (length w) p (detok ts)
        = detok (drop_tags true ts)).
Proof.
  induction ts as [|[w|c] ts IH]; intros Hwf.
  - split; [reflexivity|discriminate].
  - assert (Hwf' := Hwf). cbn [wf_tokens] in Hwf'.
    rewrite !andb_true_iff in Hwf'. destruct Hwf' as [[[H0 H1] H2] H3].
    destruct (IH H3) as [IH0 _].
    change (detok (Word w :: ts)) with (w ++ detok ts). split.
    + intros p. rewrite sub_hash_through by exact H1.
      cbn [drop_tags]. change (detok (Word w :: ?l)) with (w ++ detok l).
      now rewrite IH0.
    + intros p w' ts' [= <- <-]. cbn [drop_tags].
      destruct (sub_from_skip (re_match_at false HashWord) w (detok ts) p)
        as [p' E].
      rewrite E. apply IH0.
  - assert (Hwf' := Hwf). cbn [wf_tokens] in Hwf'.
    apply andb_true_iff in Hwf' as [Hc Hwf'].
    destruct (IH Hwf') as [IH0 IH1].
    split; [|discriminate]. intros p.
    change (detok (Sep c :: ts)) with (c :: detok ts).
    cbn [sub_from re_match_at drop_tags].
    destruct (char_eqb c hash); cbn [andb].
    + destruct ts as [|[w|d] ts'].
      * reflexivity.
      * destruct (word_run_word_head _ _ Hwf') as [Er En].
        rewrite Er. cbn [is_sep_head negb].
        destruct (length w) as [|k] eqn:El; [congruence|].
        rewrite <- El. exact (IH1 (Some c) w ts' eq_refl).
      * rewrite word_run_detok by auto. cbn [is_sep_head negb].
        change (detok (Sep c :: ?l)) with (c :: detok l). now rewrite IH0.
    + change (detok (Sep c :: ?l)) with (c :: detok l). now rewrite IH0.
Qed.

Lemma wf_drop_tags (ts : list token) :
  wf_tokens ts = true ->
  forall flag,
  wf_tokens (drop_tags flag ts) = true
  /\ (is_sep_head ts = true \/ flag = true ->
      is_sep_head (drop_tags flag ts) = true).
Proof.
  induction ts as [|[w|c] ts IH]; intros Hwf flag; [now split| |];
    cbn [wf_tokens] in Hwf.
  - rewrite !andb_true_iff in Hwf. destruct Hwf as [[[H0 H1] H2] H3].
    destruct (IH H3 false) as [W S]. cbn [drop_tags].
    destruct flag.
    + split; [exact W|]. intros _. now apply S; left.
    + split.
      * cbn [wf_tokens]. rewrite H0, H1, W, S by now left. reflexivity.
      * intros [F|F]; discriminate.
  - apply andb_true_iff in Hwf as [Hc Hwf]. cbn [drop_tags].
    destruct (char_eqb c hash && negb (is_sep_head ts)).
    + destruct (IH Hwf true) as [W S]. split; [exact W|].
      intros _. now apply S; right.
    + destruct (IH Hwf false) as [W S]. split; [|reflexivity].
      cbn [wf_tokens]. now rewrite Hc, W.
Qed.

Lemma tokens_sub_hash (s : str) :
  tokens (re_sub false HashWord s) = drop_tags false (tokens s).
Proof.
  unfold re_sub. rewrite <- (detok_tokens s) at 1.
  destruct (sub_hash_tokens _ (wf_tokens_tokens s)) as [E _].
  rewrite E. apply tokens_detok.
  now apply wf_drop_tags, wf_tokens_tokens.
Qed.

Lemma drop_tags_kw_mono (kw : str) (ts : list token) :
  forall flag,
  existsb (is_kw kw) (drop_tags flag ts) = true ->
  existsb (is_kw kw) ts = true.
Proof.
  induction ts as [|[w|c] ts IH]; intros flag; [easy| |]; cbn [drop_tags].
  - destruct flag; cbn [existsb].
    + intros H. rewrite (IH _ H). apply orb_true_r.
    + intros H. apply orb_true_iff in H as [H|H]; [now rewrite H|].
      rewrite (IH _ H). apply orb_true_r.
  - destruct (char_eqb c hash && negb (is_sep_head ts)); cbn [existsb is_kw orb];
      apply IH.
Qed.

Lemma has_word_sub_hash_mono (kw : str) (s : str) :
  has_word kw (re_sub false HashWord s) = true -> has_word kw s = true.
Proof.
  unfold has_word. rewrite tokens_sub_hash. apply drop_tags_kw_mono.
Qed.

Lemma hashtag_words_through (w rest : str) :
  forallb is_word w = true ->
  hashtag_words (w ++ rest) = hashtag_words rest.
Proof.
  induction w as [|c w IH]; [reflexivity|].
  cbn [forallb]. intros H. apply andb_true_iff in H as [Hc Hw].
  cbn [app hashtag_words]. rewrite (word_not_hash _ Hc). cbn [andb]. auto.
Qed.

Lemma hashtag_words_tokens (ts : list token) :
  wf_tokens ts = true ->
  (hashtag_words (detok ts) = [] <-> has_tag_pair ts = false).
Proof.
  induction ts as [|[w|c] ts IH]; intros Hwf; [easy| |].
  - assert (Hwf' := Hwf). cbn [wf_tokens] in Hwf'.
    rewrite !andb_true_iff in Hwf'. destruct Hwf' as [[[H0 H1] H2] H3].
    change (detok (Word w :: ts)) with (w ++ detok ts).
    rewrite hashtag_words_through by exact H1. cbn [has_tag_pair]. auto.
  - assert (Hwf' := Hwf). cbn [wf_tokens] in Hwf'.
    apply andb_true_iff in Hwf' as [Hc Hwf'].
    change (detok (Sep c :: ts)) with (c :: detok ts).
    cbn [hashtag_words has_tag_pair].
    assert (E : Nat.eqb (word_run (detok ts)) 0 = is_sep_head ts).
    { destruct ts as [|[w|d] ts'].
      - reflexivity.
      - destruct (word_run_word_head _ _ Hwf') as [Er En].
        rewrite Er. cbn [is_sep_head]. now apply Nat.eqb_neq.
      - now rewrite word_run_detok. }
    rewrite E.
    destruct (char_eqb c hash && negb (is_sep_head ts)); cbn [orb].
    + split; discriminate.
    + auto.
Qed.

Lemma has_tag_pair_filter (f : token -> bool) (ts : list token) :
  (forall c, f (Sep c) = true) ->
  has_tag_pair ts = false -> has_tag_pair (filter f ts) = false.
Proof.
  intros Hf. induction ts as [|[w|c] ts IH]; [easy| |];
    cbn [has_tag_pair filter].
  - destruct (f (Word w)); cbn [has_tag_pair]; exact IH.
  - rewrite Hf. cbn [has_tag_pair]. intros H.
    apply orb_false_iff in H as [H1 H2]. rewrite (IH H2), orb_false_r.
    destruct (char_eqb c hash); [|reflexivity]. cbn [andb] in *.
    apply negb_false_iff in H1.
    destruct ts as [|[v|d] ts']; [reflexivity|discriminate|].
    cbn [filter]. now rewrite Hf.
Qed.

Lemma hashtag_words_delete_word (kw : str) (s : str) :
  hashtag_words s = [] -> hashtag_words (delete_word kw s) = [].
Proof.
  intros H. unfold delete_word.
  apply hashtag_words_tokens.
  - apply wf_tokens_filter; [reflexivity|apply wf_tokens_tokens].
  - apply has_tag_pair_filter; [reflexivity|].
    apply hashtag_words_tokens; [apply wf_tokens_tokens|].
    now rewrite detok_tokens.
Qed.


(** ** The date stage *)

(** A handler that raises leaves the loop as if its rule were not in the
    list. *)
Lemma parse_dates_skip (pattern : regex) (f : date_func) (e : exn)
    (rest : list (regex * date_func)) (text : str) (r : ParseResult) :
  call0 f = Raise e ->
  parse_dates ((pattern, f) :: rest) text r = parse_dates rest text r.
Proof.
  intros H. cbn [parse_dates]. unfold callable. rewrite H.
  now destruct (re_search true pattern text).
Qed.

Lemma parse_dates_stage (now : date) (text : str) (r0 : ParseResult) :
  parse_dates (date_patterns now) text r0 = Ok (date_stage now text r0).
Proof.
  unfold date_patterns, date_stage.
  rewrite <- !re_search_word by reflexivity.
  rewrite <- !re_sub_word by reflexivity.
  cbn [parse_dates]. unfold callable, today, tomorrow. cbn [call0].
  destruct (re_search true (WordAlt [lit "today"]) text); [reflexivity|].
  cbn [found].
  destruct (re_search true (WordAlt [lit "tomorrow"]) text); cbn [found].
  - destruct (date_replace_day now (day now + 1)); [reflexivity|].
    cbn [bind try_except].
    now destruct (re_search true (WordAlt days) text).
  - now destruct (re_search true (WordAlt days) text).
Qed.

Lemma parse_unfold (now : date) (text : str) :
  parse_natural_language now text
  = Ok (parse_priority text
          (parse_tags text (date_stage now text (empty_result text)))).
Proof.
  unfold parse_natural_language. fold (empty_result text).
  now rewrite parse_dates_stage.
Qed.

Lemma last_day_raises (now : date) :
  day now = days_in_month (year now) (month now) ->
  date_replace_day now (day now + 1)%Z = Raise ValueError.
Proof.
  intros H. unfold date_replace_day. rewrite <- H.
  replace (day now + 1 <=? day now)%Z with false
    by (symmetry; apply Z.leb_gt; lia).
  now rewrite andb_false_r.
Qed.

(** *** The weekday helper, called on its own *)

Lemma list_index_days_range (x : str) (i : Z) :
  list_index days x = Ok i -> (0 <= i <= 6)%Z.
Proof.
  unfold days. cbn [map list_index].
  repeat (destruct (str_eqb _ x); [intros [= <-]; lia|]).
  discriminate.
Qed.

(** When [get_next_weekday] returns, the date is one to seven days after
    [now], in the same month, and falls on the weekday asked for. *)
Lemma get_next_weekday_next (now : date) (day_name : str) (d : date) :
  get_next_weekday now day_name = Ok d ->
  exists i k,
    list_index days (str_lower day_name) = Ok i
    /\ (1 <= k <= 7)%Z
    /\ k = (if (i - weekday now <=? 0)%Z then i - weekday now + 7
            else i - weekday now)%Z
    /\ d = mkdate (year now) (month now) (day now + k)
    /\ weekday d = i.
Proof.
  unfold get_next_weekday.
  destruct (list_index days (str_lower day_name)) as [i|e] eqn:E;
    [|discriminate].
  cbn [bind]. pose proof (list_index_days_range _ _ E) as Hi.
  assert (Hw : (0 <= weekday now < 7)%Z)
    by (unfold weekday; apply Z.mod_pos_bound; lia).
  set (k := (if (i - weekday now <=? 0)%Z then i - weekday now + 7
             else i - weekday now)%Z).
  assert (Hk : (1 <= k <= 7)%Z).
  { unfold k. destruct (i - weekday now <=? 0)%Z eqn:L;
      [apply Z.leb_le in L|apply Z.leb_gt in L]; lia. }
  unfold date_replace_day.
  destruct (1 <=? day now + k)%Z; [|discriminate].
  destruct (day now + k <=? days_in_month (year now) (month now))%Z;
    [|discriminate].
  cbn [andb]. intros [= <-]. exists i, k. repeat split; try lia.
  unfold weekday in *. unfold toordinal in *. cbn [year month day].
  set (T := (days_before_year (year now)
             + days_before_month (year now) (month now) + day now + 6)%Z)
    in *.
  pose proof (Z.div_mod T 7 ltac:(lia)) as DM.
  symmetry. unfold k. destruct (i - T mod 7 <=? 0)%Z.
  - apply Z.mod_unique_pos with (q := (T / 7 + 1)%Z); lia.
  - apply Z.mod_unique_pos with (q := (T / 7)%Z); lia.
Qed.

(** C1: the weekday rule never sets a due date. Its handler takes the
    match as argument, the loop calls every handler without one, and the
    resulting [TypeError] is swallowed: "Call on monday" on Friday
    2024-03-15 comes back with no due date and the weekday still in the
    title, although [get_next_weekday] itself gives 2024-03-18 for
    "monday" (and 2024-03-22 for "friday", which "Call on friday" does not
    get either); whatever the input, a due date comes from "today" or
    "tomorrow" only. *)
Theorem C1_weekday_rule_never_fires :
  parse_natural_language friday_15_march_2024 (lit "Call on monday")
  = Ok (mkresult (lit "Call on monday") None None None)
  /\ get_next_weekday friday_15_march_2024 (lit "monday")
     = Ok (mkdate 2024 3 18)
  /\ parse_natural_language friday_15_march_2024 (lit "Call on friday")
     = Ok (mkresult (lit "Call on friday") None None None)
  /\ get_next_weekday friday_15_march_2024 (lit "friday")
     = Ok (mkdate 2024 3 22)
  /\ (forall body rest text r,
        parse_dates ((WordAlt days, Lambda1 body) :: rest) text r
        = parse_dates rest text r)
  /\ (forall now text, exists r,
        parse_natural_language now text = Ok r
        /\ (due_date r = None
            \/ has_word today text = true \/ has_word tomorrow text = true)).
Proof.
  do 4 (split; [reflexivity|]). split.
  - intros body rest text r. now apply parse_dates_skip with (e := TypeError).
  - intros now text. rewrite parse_unfold. eexists. split; [reflexivity|].
    assert (E : forall r, due_date (parse_priority text (parse_tags text r))
                          = due_date r).
    { intros r. unfold parse_priority, parse_tags.
      destruct (str_in (lit "!!!") text), (str_in (lit "!!") text),
        (re_findall false tag_pattern text); reflexivity. }
    rewrite E. unfold date_stage.
    destruct (has_word today text); [auto|].
    destruct (has_word tomorrow text); auto.
Qed.

(** ** Detection and removal *)

(** C6, amended: the tag and priority stages detect their markers in the
    input as it was given, not in what the earlier stages left of it, and
    remove them from the residual title: the tags are the hashtags of the
    input, the priority is that of the input's markers, and the title is
    the date stage's title with the hashtags, then the priority marker,
    replaced away when the input holds any. *)
Theorem C6_detection_on_input (now : date) (text : str) :
  exists r1 r,
    parse_dates (date_patterns now) text (empty_result text) = Ok r1
    /\ parse_natural_language now text = Ok r
    /\ tags r = match hashtag_words text with
                | [] => None
                | l => Some l
                end
    /\ priority r = priority_of text
    /\ title r = priority_strip text (tag_strip text (title r1)).
Proof.
  exists (date_stage now text (empty_result text)).
  eexists. split; [apply parse_dates_stage|].
  split; [apply parse_unfold|].
  set (r1 := date_stage now text (empty_result text)).
  assert (T1 : tags r1 = None).
  { unfold r1, date_stage. destruct (has_word today text); [reflexivity|].
    destruct (has_word tomorrow text); [|reflexivity].
    now destruct (date_replace_day now (day now + 1)). }
  assert (P1 : priority r1 = None).
  { unfold r1, date_stage. destruct (has_word today text); [reflexivity|].
    destruct (has_word tomorrow text); [|reflexivity].
    now destruct (date_replace_day now (day now + 1)). }
  pose proof (parse_tags_cases text r1 T1) as C. cbv zeta in C.
  split; [|split].
  - rewrite parse_priority_tags.
    destruct (hashtag_words text); [now rewrite C|apply C].
  - apply parse_priority_field. now rewrite parse_tags_priority.
  - unfold tag_strip.
    assert (E : title (parse_tags text r1)
                = match hashtag_words text with
                  | [] => title r1
                  | _ :: _ => strip (re_sub false tag_pattern (title r1))
                  end).
    { destruct (hashtag_words text); [now rewrite C|apply C]. }
    rewrite <- E. unfold parse_priority, priority_strip.
    destruct (str_in (lit "!!!") text); [reflexivity|].
    now destruct (str_in (lit "!!") text).
Qed.


(** ** Other keywords are left alone *)

Lemma ci_eq_inj (p q c : char) :
  in_range 97%N 122%N p = true -> in_range 97%N 122%N q = true ->
  ci_eq p c = true -> ci_eq q c = true -> p = q.
Proof.
  unfold in_range, ci_eq, in_range. intros Hp Hq H1 H2.
  b2p Hp. b2p Hq. b2p H1. b2p H2. lia.
Qed.

Lemma ci_match_inj (kw kw' w : str) :
  lower kw = true -> lower kw' = true ->
  ci_match kw w = true -> ci_match kw' w = true -> kw = kw'.
Proof.
  unfold ci_match, lower. intros L L' H H'.
  apply andb_true_iff in H as [H E]. apply andb_true_iff in H' as [H' E'].
  apply Nat.eqb_eq in E, E'. rewrite E' in E. clear E'.
  revert kw' w L L' H H' E.
  induction kw as [|p kw IH]; intros [|q kw'] w L L' H H' E;
    try discriminate; [reflexivity|].
  destruct w as [|c w]; [discriminate|].
  cbn [forallb lit_prefix lit_eq length] in *.
  apply andb_true_iff in L as [Lp L]. apply andb_true_iff in L' as [Lq L'].
  apply andb_true_iff in H as [Hc H]. apply andb_true_iff in H' as [Hc' H'].
  f_equal; [exact (ci_eq_inj _ _ _ Lp Lq Hc Hc')|].
  apply (IH kw' w); auto.
Qed.

Lemma has_word_delete_other (kw kw' : str) (s : str) :
  lower kw = true -> lower kw' = true -> kw' <> kw ->
  has_word kw' (delete_word kw s) = has_word kw' s.
Proof.
  intros L L' Hne. unfold has_word. rewrite tokens_delete_word.
  induction (tokens s) as [|t ts IH]; [reflexivity|].
  cbn [filter existsb]. destruct (is_kw kw t) eqn:E; cbn [negb existsb].
  - rewrite IH. destruct t as [w|c]; [|discriminate].
    cbn [is_kw] in *. destruct (ci_match kw' w) eqn:E'; [|reflexivity].
    exfalso. apply Hne. exact (ci_match_inj _ _ _ L' L E' E).
  - now rewrite IH.
Qed.

(** C5, amended: at most one date rule sets the due date, the first of
    "today" and "tomorrow" that matches and whose date computes. The date
    stage deletes every whole-word occurrence of that rule's phrase,
    repeated ones included, so that the title holds none, and leaves the
    whole words of every other keyword as they were. "today today" gives
    an empty title, "today tomorrow" the title "tomorrow". *)
Theorem C5_first_date_rule_wins (now : date) :
  (forall text, exists r1,
     parse_dates (date_patterns now) text (empty_result text) = Ok r1
     /\ (has_word today text = true ->
         due_date r1 = Some now
         /\ title r1 = strip (delete_word today text)
         /\ has_word today (title r1) = false
         /\ forall kw, lower kw = true -> kw <> today ->
                       has_word kw (title r1) = has_word kw text)
     /\ (has_word today text = false -> has_word tomorrow text = true ->
         forall d, date_replace_day now (day now + 1)%Z = Ok d ->
         due_date r1 = Some d
         /\ title r1 = strip (delete_word tomorrow text)
         /\ has_word tomorrow (title r1) = false
         /\ forall kw, lower kw = true -> kw <> tomorrow ->
                       has_word kw (title r1) = has_word kw text))
  /\ parse_natural_language now (lit "today today")
     = Ok (mkresult [] (Some now) None None)
  /\ parse_natural_language now (lit "today tomorrow")
     = Ok (mkresult (lit "tomorrow") (Some now) None None).
Proof.
  split; [|split; reflexivity].
  intros text. eexists. split; [apply parse_dates_stage|].
  unfold date_stage. split.
  - intros H. rewrite H. cbn [due_date title set_title set_due_date].
    repeat split.
    + now rewrite has_word_strip, has_word_delete_same.
    + intros kw L Hne.
      now rewrite has_word_strip, has_word_delete_other.
  - intros H H' d E. rewrite H, H', E.
    cbn [due_date title set_title set_due_date]. repeat split.
    + now rewrite has_word_strip, has_word_delete_same.
    + intros kw L Hne.
      now rewrite has_word_strip, has_word_delete_other.
Qed.

(** ** Titles and re-parsing *)

Lemma date_stage_fields (now : date) (text : str) :
  tags (date_stage now text (empty_result text)) = None
  /\ priority (date_stage now text (empty_result text)) = None.
Proof.
  unfold date_stage. destruct (has_word today text); [now split|].
  destruct (has_word tomorrow text); [|now split].
  now destruct (date_replace_day now (day now + 1)).
Qed.

Lemma parsed_priority (now : date) (text : str) :
  priority (parsed now text) = priority_of text.
Proof.
  unfold parsed. apply parse_priority_field.
  rewrite parse_tags_priority. apply date_stage_fields.
Qed.

Lemma parsed_tags (now : date) (text : str) :
  tags (parsed now text) = match hashtag_words text with
                           | [] => None
                           | l => Some l
                           end.
Proof.
  unfold parsed. rewrite parse_priority_tags.
  pose proof (parse_tags_cases text _ (proj1 (date_stage_fields now text)))
    as C. cbv zeta in C.
  destruct (hashtag_words text); [rewrite C; apply date_stage_fields|apply C].
Qed.

Lemma parsed_due_date (now : date) (text : str) :
  due_date (parsed now text)
  = due_date (date_stage now text (empty_result text)).
Proof.
  unfold parsed, parse_priority, parse_tags.
  destruct (str_in (lit "!!!") text), (str_in (lit "!!") text),
    (re_findall false tag_pattern text); reflexivity.
Qed.

Lemma parsed_title_plain (now : date) (text : str) :
  priority (parsed now text) = None ->
  title (parsed now text)
  = title (parse_tags text (date_stage now text (empty_result text))).
Proof.
  intros H. unfold parsed in *.
  pose proof (parse_priority_cases text
                (parse_tags text (date_stage now text (empty_result text))))
    as C.
  rewrite parse_tags_priority in C.
  specialize (C (proj2 (date_stage_fields now text))). cbv zeta in C.
  destruct (str_in (lit "!!!") text); [destruct C; congruence|].
  destruct (str_in (lit "!!") text); [destruct C; congruence|apply C].
Qed.

Lemma parse_tags_word_mono (kw : str) (text : str) (r : ParseResult) :
  has_word kw (title (parse_tags text r)) = true ->
  has_word kw (title r) = true.
Proof.
  unfold parse_tags. destruct (re_findall false tag_pattern text); [auto|].
  cbn [title set_title set_tags]. rewrite has_word_strip.
  apply has_word_sub_hash_mono.
Qed.

Lemma date_stage_word_mono (kw : str) (now : date) (text : str) :
  has_word kw (title (date_stage now text (empty_result text))) = true ->
  has_word kw text = true.
Proof.
  unfold date_stage.
  destruct (has_word today text).
  - cbn [title set_title]. rewrite has_word_strip.
    apply has_word_delete_mono.
  - destruct (has_word tomorrow text).
    + destruct (date_replace_day now (day now + 1)).
      * cbn [title set_title]. rewrite has_word_strip.
        apply has_word_delete_mono.
      * cbn [title empty_result]. now rewrite has_word_strip.
    + cbn [title empty_result]. now rewrite has_word_strip.
Qed.

Lemma date_stage_phrase_gone (now : date) (text : str) :
  due_date (date_stage now text (empty_result text)) <> None ->
  has_word (date_phrase text)
    (title (date_stage now text (empty_result text))) = false.
Proof.
  unfold date_stage, date_phrase.
  destruct (has_word today text).
  - intros _. cbn [title set_title].
    now rewrite has_word_strip, has_word_delete_same.
  - destruct (has_word tomorrow text); [|easy].
    destruct (date_replace_day now (day now + 1)); [|easy].
    intros _. cbn [title set_title].
    now rewrite has_word_strip, has_word_delete_same.
Qed.

Lemma date_stage_no_hashtag (now : date) (text : str) :
  hashtag_words text = [] ->
  hashtag_words (title (date_stage now text (empty_result text))) = [].
Proof.
  intros H. unfold date_stage.
  destruct (has_word today text).
  - cbn [title set_title].
    now apply hashtag_words_strip, hashtag_words_delete_word.
  - destruct (has_word tomorrow text).
    + destruct (date_replace_day now (day now + 1)).
      * cbn [title set_title].
        now apply hashtag_words_strip, hashtag_words_delete_word.
      * now apply hashtag_words_strip.
    + now apply hashtag_words_strip.
Qed.

Lemma parsed_no_hashtag (now : date) (text : str) :
  priority (parsed now text) = None ->
  hashtag_words (title (parsed now text)) = [].
Proof.
  intros H. rewrite parsed_title_plain by exact H.
  pose proof (parse_tags_cases text _ (proj1 (date_stage_fields now text)))
    as C. cbv zeta in C.
  destruct (hashtag_words text) eqn:E; [|apply C].
  rewrite C. now apply date_stage_no_hashtag.
Qed.

Lemma str_in_pattern_prefix (p q s : str) :
  str_in (p ++ q) s = true -> str_in p s = true.
Proof.
  assert (P : forall t, starts_with (p ++ q) t = true -> starts_with p t = true).
  { induction p as [|x p IH]; intros t; [reflexivity|].
    destruct t as [|c t]; [easy|]. cbn [app starts_with].
    intros H. apply andb_true_iff in H as [H1 H2]. rewrite H1. cbn. auto. }
  induction s as [|c s IH]; cbn [str_in]; intros H;
    apply orb_true_iff in H as [H|H]; try discriminate.
  - now rewrite (P _ H).
  - now rewrite (P _ H).
  - rewrite (IH H). apply orb_true_r.
Qed.

Lemma priority_marker_gone (now : date) (text : str) :
  (priority (parsed now text) = Some 3%Z ->
   str_in (lit "!!!") (title (parsed now text)) = false)
  /\ (priority (parsed now text) = Some 2%Z ->
      str_in (lit "!!") (title (parsed now text)) = false).
Proof.
  pose proof (parse_priority_cases text
                (parse_tags text (date_stage now text (empty_result text))))
    as C.
  rewrite parse_tags_priority in C.
  specialize (C (proj2 (date_stage_fields now text))). cbv zeta in C.
  fold (parsed now text) in C. split.
  - intros H. destruct (str_in (lit "!!!") text); [apply C|].
    destruct (str_in (lit "!!") text); destruct C; congruence.
  - intros H. destruct (str_in (lit "!!!") text); [destruct C; congruence|].
    destruct (str_in (lit "!!") text); [apply C|destruct C; congruence].
Qed.

(** C3, amended: the title holds no occurrence of the priority marker that
    was extracted, "!!!" with priority 3 and "!!" with priority 2; with
    priority 3 a "!!" can stay behind. When no priority marker was
    stripped, a title whose tags were extracted holds no hashtag, and a
    title whose due date was extracted holds no whole-word occurrence of
    the phrase that set it. *)
Theorem C3_title_markers (now : date) (text : str) :
  exists r,
    parse_natural_language now text = Ok r
    /\ (priority r = Some 3%Z -> str_in (lit "!!!") (title r) = false)
    /\ (priority r = Some 2%Z -> str_in (lit "!!") (title r) = false)
    /\ (priority r = None -> tags r <> None -> hashtag_words (title r) = [])
    /\ (priority r = None -> due_date r <> None ->
        has_word (date_phrase text) (title r) = false).
Proof.
  exists (parsed now text). split; [apply parse_unfold|].
  destruct (priority_marker_gone now text) as [M3 M2].
  split; [exact M3|]. split; [exact M2|]. split.
  - intros H _. now apply parsed_no_hashtag.
  - intros H D. rewrite parsed_due_date in D.
    apply not_true_is_false. intros F.
    rewrite parsed_title_plain in F by exact H.
    apply parse_tags_word_mono in F.
    now rewrite date_stage_phrase_gone in F.
Qed.

(** C4, amended: parsing the returned title again does not extract the
    priority marker the first call stripped: after priority 2 the second
    call gives no priority, after priority 3 it never gives 3 (it can give
    2). When the input holds no priority marker, the second call extracts
    no tags, and no due date unless "today" set the first one and a
    "tomorrow" was left in the title. *)
Theorem C4_reparse (now : date) (text : str) :
  exists r r',
    parse_natural_language now text = Ok r
    /\ parse_natural_language now (title r) = Ok r'
    /\ (priority r = Some 2%Z -> priority r' = None)
    /\ (priority r = Some 3%Z -> priority r' <> Some 3%Z)
    /\ (priority r = None ->
        tags r' = None
        /\ (due_date r' = None
            \/ (has_word today text = true
                /\ has_word tomorrow (title r) = true))).
Proof.
  exists (parsed now text), (parsed now (title (parsed now text))).
  split; [apply parse_unfold|]. split; [apply parse_unfold|].
  destruct (priority_marker_gone now text) as [M3 M2].
  split; [|split].
  - intros H. rewrite parsed_priority. unfold priority_of.
    specialize (M2 H).
    destruct (str_in (lit "!!!") (title (parsed now text))) eqn:E.
    + apply (str_in_pattern_prefix (lit "!!") (lit "!")) in E. congruence.
    + now rewrite M2.
  - intros H. rewrite parsed_priority. unfold priority_of.
    rewrite (M3 H). now destruct (str_in (lit "!!") (title (parsed now text))).
  - intros H. split.
    + rewrite parsed_tags. now rewrite parsed_no_hashtag.
    + rewrite parsed_due_date.
      set (t := title (parsed now text)).
      assert (Mono : forall kw, has_word kw t = true -> has_word kw text = true).
      { intros kw F. unfold t in F. rewrite parsed_title_plain in F by exact H.
        now apply parse_tags_word_mono, date_stage_word_mono in F. }
      assert (Gone : due_date (date_stage now text (empty_result text)) <> None
                     -> has_word (date_phrase text) t = false).
      { intros D. apply not_true_is_false. intros F. unfold t in F.
        rewrite parsed_title_plain in F by exact H.
        apply parse_tags_word_mono in F.
        now rewrite date_stage_phrase_gone in F. }
      unfold date_phrase in Gone. unfold date_stage in Gone |- *.
      destruct (has_word today text) eqn:T.
      * rewrite Gone by easy.
        destruct (has_word tomorrow t) eqn:T'; [now right|now left].
      * destruct (has_word today t) eqn:Tt; [apply Mono in Tt; congruence|].
        destruct (has_word tomorrow t) eqn:T'; [|now left].
        rewrite (Mono _ T') in Gone.
        destruct (date_replace_day now (day now + 1)); [|now left].
        assert (G : true = false) by (apply Gone; easy). discriminate G.
Qed.

(** ** Hashtags collected and hashtags removed *)

Lemma word_run_le (s : str) : word_run s <= length s.
Proof.
  induction s as [|c s IH]; cbn [word_run length]; [lia|].
  destruct (is_word c); lia.
Qed.

Lemma word_run_blank_suffix (s y : str) :
  forallb is_space y = true -> word_run (s ++ y) = word_run s.
Proof.
  intros Hy. induction s as [|c s IH].
  - destruct y as [|d y]; [reflexivity|]. cbn [forallb] in Hy.
    apply andb_true_iff in Hy as [Hd _].
    cbn [app word_run]. now rewrite (space_not_word _ Hd).
  - cbn [app word_run]. now rewrite IH.
Qed.

Lemma hashtag_words_blank_prefix (x s : str) :
  forallb is_space x = true -> hashtag_words (x ++ s) = hashtag_words s.
Proof.
  induction x as [|c x IH]; [reflexivity|]. cbn [forallb]. intros H.
  apply andb_true_iff in H as [Hc Hx]. cbn [app hashtag_words].
  rewrite (hash_not_space _ Hc). cbn [andb]. auto.
Qed.

Lemma hashtag_words_blank_suffix (s y : str) :
  forallb is_space y = true -> hashtag_words (s ++ y) = hashtag_words s.
Proof.
  intros Hy. induction s as [|c s IH].
  - cbn [app]. rewrite <- (app_nil_r y).
    now rewrite hashtag_words_blank_prefix.
  - cbn [app hashtag_words]. rewrite word_run_blank_suffix, IH by exact Hy.
    rewrite firstn_app.
    replace (word_run s - length s) with 0
      by (pose proof (word_run_le s); lia).
    cbn [firstn]. now rewrite app_nil_r.
Qed.

(** Stripping takes no hashtag away and makes none. *)
Lemma hashtag_words_strip_eq (s : str) :
  hashtag_words (strip s) = hashtag_words s.
Proof.
  destruct (lstrip_blank_prefix s) as [x [Ex Fx]].
  destruct (rstrip_blank_suffix (lstrip s)) as [y [Ey Fy]].
  transitivity (hashtag_words (lstrip s)).
  - unfold strip.
    rewrite <- (hashtag_words_blank_suffix (rstrip (lstrip s)) y Fy).
    now rewrite <- Ey.
  - rewrite <- (hashtag_words_blank_prefix x (lstrip s) Fx).
    now rewrite <- Ex.
Qed.

Lemma firstn_length_app (w rest : str) : firstn (length w) (w ++ rest) = w.
Proof.
  rewrite firstn_app, firstn_all, Nat.sub_diag. cbn [firstn].
  apply app_nil_r.
Qed.

Lemma is_sep_head_filter (f : token -> bool) (ts : list token) :
  (forall c, f (Sep c) = true) -> is_sep_head ts = true ->
  is_sep_head (filter f ts) = true.
Proof.
  intros Hf. destruct ts as [|[w|c] ts]; [reflexivity|discriminate|].
  intros _. cbn [filter]. now rewrite Hf.
Qed.

(** Deleting the whole words equal to [kw] takes away the hashtags on
    them, and no other. *)
Lemma hashtag_words_filter (kw : str) (ts : list token) :
  wf_tokens ts = true ->
  hashtag_words (detok (filter (fun t => negb (is_kw kw t)) ts))
  = filter (fun w => negb (ci_match kw w)) (hashtag_words (detok ts)).
Proof.
  set (f := fun t => negb (is_kw kw t)).
  set (g := fun w => negb (ci_match kw w)).
  assert (Hf : forall c, f (Sep c) = true) by reflexivity.
  induction ts as [|[w|c] ts IH]; intros Hwf; [reflexivity| |].
  - assert (Hwf' := Hwf). cbn [wf_tokens] in Hwf'.
    rewrite !andb_true_iff in Hwf'. destruct Hwf' as [[[H0 H1] H2] H3].
    change (detok (Word w :: ts)) with (w ++ detok ts).
    rewrite hashtag_words_through by exact H1. rewrite <- IH by exact H3.
    change (filter f (Word w :: ts))
      with (if f (Word w) then Word w :: filter f ts else filter f ts).
    destruct (f (Word w)); [|reflexivity].
    change (detok (Word w :: filter f ts)) with (w ++ detok (filter f ts)).
    now rewrite hashtag_words_through.
  - assert (Hwf' := Hwf). cbn [wf_tokens] in Hwf'.
    apply andb_true_iff in Hwf' as [Hc Hwf'].
    specialize (IH Hwf').
    change (filter f (Sep c :: ts)) with (Sep c :: filter f ts).
    change (detok (Sep c :: filter f ts)) with (c :: detok (filter f ts)).
    change (detok (Sep c :: ts)) with (c :: detok ts).
    cbn [hashtag_words].
    destruct (char_eqb c hash); cbn [andb]; [|exact IH].
    destruct ts as [|[w|d] ts'].
    + reflexivity.
    + destruct (word_run_word_head _ _ Hwf') as [Er En].
      rewrite Er. apply Nat.eqb_neq in En. rewrite En. cbn [negb].
      change (detok (Word w :: ts')) with (w ++ detok ts') at 1.
      rewrite firstn_length_app.
      change (filter g (w :: ?l))
        with (if g w then w :: filter g l else filter g l).
      rewrite <- IH.
      assert (Hwf2 := Hwf'). cbn [wf_tokens] in Hwf2.
      rewrite !andb_true_iff in Hwf2. destruct Hwf2 as [[[_ _] H2] H3].
      pose proof (wf_tokens_filter f _ Hf Hwf') as Wf.
      change (filter f (Word w :: ts'))
        with (if f (Word w) then Word w :: filter f ts' else filter f ts')
        in *.
      change (f (Word w)) with (g w) in *.
      destruct (g w).
      * destruct (word_run_word_head _ _ Wf) as [Er' En'].
        rewrite Er'. apply Nat.eqb_neq in En'. rewrite En'. cbn [negb].
        change (detok (Word w :: filter f ts'))
          with (w ++ detok (filter f ts')) at 1.
        now rewrite firstn_length_app.
      * rewrite word_run_detok;
          [reflexivity|exact Wf|now apply is_sep_head_filter].
    + rewrite (word_run_detok (Sep d :: ts')) by auto.
      pose proof (wf_tokens_filter f _ Hf Hwf') as Wf.
      change (filter f (Sep d :: ts')) with (Sep d :: filter f ts') in *.
      rewrite (word_run_detok (Sep d :: filter f ts')) by auto.
      exact IH.
Qed.

Lemma hashtag_words_delete (kw : str) (s : str) :
  hashtag_words (delete_word kw s)
  = filter (fun w => negb (ci_match kw w)) (hashtag_words s).
Proof.
  unfold delete_word.
  rewrite hashtag_words_filter by apply wf_tokens_tokens.
  now rewrite detok_tokens.
Qed.

(** The hashtags of the title the date stage leaves. *)
Lemma date_stage_hashtags (now : date) (text : str) :
  let r1 := date_stage now text (empty_result text) in
  hashtag_words (title r1)
  = match due_date r1 with
    | None => hashtag_words text
    | Some _ => filter (fun w => negb (ci_match (date_phrase text) w))
                  (hashtag_words text)
    end.
Proof.
  cbv zeta. unfold date_stage, date_phrase.
  destruct (has_word today text).
  - cbn [title due_date set_title set_due_date].
    now rewrite hashtag_words_strip_eq, hashtag_words_delete.
  - destruct (has_word tomorrow text).
    + destruct (date_replace_day now (day now + 1)).
      * cbn [title due_date set_title set_due_date].
        now rewrite hashtag_words_strip_eq, hashtag_words_delete.
      * apply hashtag_words_strip_eq.
    + apply hashtag_words_strip_eq.
Qed.

Lemma date_stage_untouched (now : date) (text : str) :
  due_date (date_stage now text (empty_result text)) = None ->
  date_stage now text (empty_result text) = empty_result text.
Proof.
  unfold date_stage.
  destruct (has_word today text); [discriminate|].
  destruct (has_word tomorrow text); [|reflexivity].
  now destruct (date_replace_day now (day now + 1)).
Qed.

(** [re.sub(r'#\w+', '', s)] on tokens. *)
Lemma re_sub_hash (s : str) :
  re_sub false tag_pattern s = detok (drop_tags false (tokens s)).
Proof.
  unfold re_sub, tag_pattern. rewrite <- (detok_tokens s) at 1.
  apply sub_hash_tokens, wf_tokens_tokens.
Qed.

(** C8, amended: tag collection is exhaustive on the input. Every hash
    followed by word characters in the input gives its run of word
    characters, in order of appearance and with duplicates, as the tags;
    with no hashtag in the input, tags is absent and the tag stage changes
    nothing. Removal works on the title the date stage leaves: each hash
    that stands right before a word is dropped from it together with that
    word, and the title after the tag stage holds no hashtag. The hashtags
    of that title are the collected ones when no due date was extracted,
    and otherwise the collected ones without those on the extracted date
    phrase, whose word the date stage has deleted and whose hash stays in
    the title. With no priority marker the returned title holds no
    hashtag. "Buy groceries #shopping #food" gives the title
    "Buy groceries" and the tags shopping, food. *)
Theorem C8_tags_exhaustive (now : date) :
  (forall text, exists r1 r,
     parse_dates (date_patterns now) text (empty_result text) = Ok r1
     /\ parse_natural_language now text = Ok r
     /\ tags r = match hashtag_words text with
                 | [] => None
                 | l => Some l
                 end
     /\ (let r2 := parse_tags text r1 in
         match hashtag_words text with
         | [] => r2 = r1
         | l => tags r2 = Some l
                /\ title r2 = strip (re_sub false tag_pattern (title r1))
                /\ hashtag_words (title r2) = []
         end)
     /\ re_sub false tag_pattern (title r1)
        = detok (drop_tags false (tokens (title r1)))
     /\ hashtag_words (title r1)
        = match due_date r with
          | None => hashtag_words text
          | Some _ =>
              filter (fun w => negb (ci_match (date_phrase text) w))
                (hashtag_words text)
          end
     /\ (due_date r = None -> title r1 = strip text)
     /\ (priority r = None -> hashtag_words (title r) = []))
  /\ parse_natural_language now (lit "Buy groceries #shopping #food")
     = Ok (mkresult (lit "Buy groceries") None
             (Some [lit "shopping"; lit "food"]) None).
Proof.
  split; [|reflexivity].
  intros text.
  exists (date_stage now text (empty_result text)), (parsed now text).
  split; [apply parse_dates_stage|]. split; [apply parse_unfold|].
  split; [apply parsed_tags|]. split; [|split; [|split; [|split]]].
  - apply parse_tags_cases, date_stage_fields.
  - apply re_sub_hash.
  - rewrite parsed_due_date. apply date_stage_hashtags.
  - rewrite parsed_due_date. intros H.
    now rewrite (date_stage_untouched _ _ H).
  - apply parsed_no_hashtag.
Qed.

(** ** A failed date rule *)

Lemma free_word_sep_head (kw : str) (ts : list token) (b : bool) :
  is_sep_head ts = true -> free_word kw b ts = free_word kw false ts.
Proof. now destruct ts as [|[w|c] ts]. Qed.

(** What [re.sub(r'#\w+', '', s)] leaves of the whole words. *)
Lemma free_word_drop_tags (kw : str) (ts : list token) :
  forall flag,
  existsb (is_kw kw) (drop_tags flag ts) = free_word kw flag ts.
Proof.
  induction ts as [|[w|c] ts IH]; intros flag; [reflexivity| |];
    cbn [drop_tags free_word].
  - destruct flag; cbn [existsb is_kw negb andb orb]; now rewrite IH.
  - destruct (char_eqb c hash); cbn [andb].
    + destruct (is_sep_head ts) eqn:E; cbn [negb]; [|apply IH].
      cbn [existsb is_kw orb]. rewrite IH.
      symmetry. now apply free_word_sep_head.
    + cbn [existsb is_kw orb]. apply IH.
Qed.

Lemma has_word_sub_hash (kw : str) (s : str) :
  has_word kw (re_sub false tag_pattern s) = has_free_word kw s.
Proof.
  unfold has_word, has_free_word, tag_pattern.
  rewrite tokens_sub_hash. apply free_word_drop_tags.
Qed.

Lemma free_word_no_tags (kw : str) (ts : list token) :
  has_tag_pair ts = false ->
  forall b, (b = true -> is_sep_head ts = true) ->
  free_word kw b ts = existsb (is_kw kw) ts.
Proof.
  induction ts as [|[w|c] ts IH]; intros H b Hb; [reflexivity| |];
    cbn [has_tag_pair] in H; cbn [free_word existsb is_kw].
  - destruct b; [specialize (Hb eq_refl); discriminate|].
    cbn [negb andb]. f_equal. apply IH; [exact H|discriminate].
  - apply orb_false_iff in H as [H1 H2]. cbn [orb].
    apply IH; [exact H2|]. intros E. rewrite E in H1. cbn [andb] in H1.
    now apply negb_false_iff in H1.
Qed.

Lemma has_free_word_no_tags (kw : str) (s : str) :
  hashtag_words s = [] -> has_free_word kw s = has_word kw s.
Proof.
  intros H. unfold has_free_word, has_word.
  apply free_word_no_tags; [|discriminate].
  apply hashtag_words_tokens; [apply wf_tokens_tokens|].
  now rewrite detok_tokens.
Qed.

Lemma free_word_blank_prefix (kw : str) (x : str) (ts : list token) :
  forallb is_space x = true ->
  free_word kw false (map Sep x ++ ts) = free_word kw false ts.
Proof.
  induction x as [|c x IH]; [reflexivity|]. cbn [forallb]. intros H.
  apply andb_true_iff in H as [Hc Hx]. cbn [map app free_word].
  rewrite (hash_not_space _ Hc). auto.
Qed.

Lemma free_word_seps (kw : str) (y : str) :
  forall b, free_word kw b (map Sep y) = false.
Proof. induction y as [|c y IH]; intros b; [reflexivity|apply IH]. Qed.

Lemma free_word_blank_suffix (kw : str) (y : str) (ts : list token) :
  forall b, free_word kw b (ts ++ map Sep y) = free_word kw b ts.
Proof.
  induction ts as [|[w|c] ts IH]; intros b; cbn [app free_word].
  - apply free_word_seps.
  - now rewrite IH.
  - apply IH.
Qed.

Lemma has_free_word_strip (kw : str) (s : str) :
  has_free_word kw (strip s) = has_free_word kw s.
Proof.
  unfold has_free_word.
  destruct (lstrip_blank_prefix s) as [x [Ex Fx]].
  destruct (rstrip_blank_suffix (lstrip s)) as [y [Ey Fy]].
  transitivity (free_word kw false (tokens (lstrip s))).
  - unfold strip.
    rewrite <- (free_word_blank_suffix kw y (tokens (rstrip (lstrip s)))).
    rewrite <- tokens_blank_suffix by exact Fy. now rewrite <- Ey.
  - rewrite <- (free_word_blank_prefix kw x (tokens (lstrip s)) Fx).
    rewrite <- tokens_blank_prefix by exact Fx. now rewrite <- Ex.
Qed.

Lemma parse_priority_none (text : str) (r : ParseResult) :
  str_in (lit "!!") text = false -> parse_priority text r = r.
Proof.
  intros H. unfold parse_priority. rewrite H.
  destruct (str_in (lit "!!!") text) eqn:E; [|reflexivity].
  apply (str_in_pattern_prefix (lit "!!") (lit "!")) in E. congruence.
Qed.

(** The whole words the tag stage leaves of the stripped input. *)
Lemma parse_tags_free_word (kw : str) (text : str) :
  has_word kw (title (parse_tags text (empty_result text)))
  = has_free_word kw text.
Proof.
  unfold parse_tags. rewrite re_findall_hash.
  destruct (hashtag_words text) eqn:E.
  - cbn [title empty_result]. rewrite has_word_strip.
    symmetry. now apply has_free_word_no_tags.
  - cbn [title set_title set_tags empty_result].
    now rewrite has_word_strip, has_word_sub_hash, has_free_word_strip.
Qed.

(** C9, amended: a date rule whose computation fails is skipped. On the
    last day of a month the "tomorrow" handler raises [ValueError]; the
    loop then goes on with the rules after it as if the rule were not
    there, and when "today" does not occur either the date stage sets no
    field and removes nothing: its title is the stripped input, every
    whole word of the input still in it. The call returns what the tag and
    priority stages make of that title, with no due date. Those stages can
    still take the phrase away: with no priority marker in the input the
    returned title holds the phrase as a whole word exactly when some
    occurrence in the input does not stand right after a hash, and with
    no hashtag either the returned title is the stripped input. *)
Theorem C9_failed_date_rule_skipped (now : date) (text : str) :
  day now = days_in_month (year now) (month now) ->
  has_word today text = false ->
  date_replace_day now (day now + 1)%Z = Raise ValueError
  /\ (forall rest r,
        parse_dates
          ((WordAlt [lit "tomorrow"],
            Lambda0 (fun _ => date_replace_day now (day now + 1)%Z)) :: rest)
          text r
        = parse_dates rest text r)
  /\ parse_dates (date_patterns now) text (empty_result text)
     = Ok (empty_result text)
  /\ title (empty_result text) = strip text
  /\ (forall kw, has_word kw (title (empty_result text)) = has_word kw text)
  /\ parse_natural_language now text
     = Ok (parse_priority text (parse_tags text (empty_result text)))
  /\ due_date (parse_priority text (parse_tags text (empty_result text)))
     = None
  /\ (str_in (lit "!!") text = false ->
      has_word tomorrow
        (title (parse_priority text (parse_tags text (empty_result text))))
      = has_free_word tomorrow text)
  /\ (str_in (lit "!!") text = false -> hashtag_words text = [] ->
      parse_priority text (parse_tags text (empty_result text))
      = empty_result text).
Proof.
  intros Hlast Htoday. pose proof (last_day_raises now Hlast) as E.
  assert (S1 : date_stage now text (empty_result text) = empty_result text).
  { unfold date_stage. rewrite Htoday, E.
    now destruct (has_word tomorrow text). }
  split; [exact E|]. split; [|split; [|split; [|split; [|split; [|split;
    [|split]]]]]].
  - intros rest r. now apply parse_dates_skip with (e := ValueError).
  - now rewrite parse_dates_stage, S1.
  - reflexivity.
  - intros kw. apply has_word_strip.
  - now rewrite parse_unfold, S1.
  - unfold parse_priority, parse_tags.
    destruct (str_in (lit "!!!") text), (str_in (lit "!!") text),
      (re_findall false tag_pattern text); reflexivity.
  - intros Hp. rewrite parse_priority_none by exact Hp.
    apply parse_tags_free_word.
  - intros Hp Hh. rewrite parse_priority_none by exact Hp.
    unfold parse_tags. now rewrite re_findall_hash, Hh.
Qed.

(** ** The weekday helper: further properties *)

Lemma str_eqb_eq (a b : str) : str_eqb a b = true <-> a = b.
Proof.
  revert b. induction a as [|x a IH]; intros [|y b]; cbn [str_eqb];
    try easy.
  unfold char_eqb. rewrite andb_true_iff, N.eqb_eq, IH.
  split; [intros [-> ->]; reflexivity|intros [= -> ->]; auto].
Qed.

Lemma list_index_in (l : list str) (x : str) :
  In x l -> exists i, list_index l x = Ok i.
Proof.
  induction l as [|y l IH]; [easy|]. intros H. cbn [list_index].
  destruct (str_eqb y x) eqn:E; [eauto|].
  destruct H as [H|H]; [apply str_eqb_eq in H; congruence|].
  destruct (IH H) as [i Hi]. rewrite Hi. cbn. eauto.
Qed.

Lemma list_index_not_in (l : list str) (x : str) :
  ~ In x l -> list_index l x = Raise ValueError.
Proof.
  induction l as [|y l IH]; [reflexivity|]. intros H. cbn [list_index].
  destruct (str_eqb y x) eqn:E.
  - apply str_eqb_eq in E. exfalso. apply H. now left.
  - rewrite IH; [reflexivity|]. intros F. apply H. now right.
Qed.

Lemma weekday_range (d : date) : (0 <= weekday d < 7)%Z.
Proof. unfold weekday. apply Z.mod_pos_bound. lia. Qed.

Lemma days_ahead_range (now : date) (i : Z) :
  (0 <= i <= 6)%Z -> (1 <= days_ahead now i <= 7)%Z.
Proof.
  intros Hi. pose proof (weekday_range now) as Hw. unfold days_ahead.
  destruct (i - weekday now <=? 0)%Z eqn:L;
    [apply Z.leb_le in L|apply Z.leb_gt in L]; lia.
Qed.

Lemma get_next_weekday_unfold (now : date) (day_name : str) :
  get_next_weekday now day_name =
  match list_index days (str_lower day_name) with
  | Ok i => date_replace_day now (day now + days_ahead now i)
  | Raise e => Raise e
  end.
Proof.
  unfold get_next_weekday, days_ahead.
  now destruct (list_index days (str_lower day_name)).
Qed.

(** X1: when [get_next_weekday] returns, the date is the next occurrence
    of the weekday asked for: one to seven days after [now], never [now]
    itself, in the same month, on that weekday, with no day in between on
    that weekday; it is a valid date when [now] is one. *)
Theorem get_next_weekday_is_next (now : date) (day_name : str) (d : date) :
  get_next_weekday now day_name = Ok d ->
  exists k,
    (1 <= k <= 7)%Z
    /\ d = mkdate (year now) (month now) (day now + k)
    /\ toordinal d = (toordinal now + k)%Z
    /\ list_index days (str_lower day_name) = Ok (weekday d)
    /\ (forall j, (1 <= j < k)%Z ->
          weekday (mkdate (year now) (month now) (day now + j)) <> weekday d)
    /\ (valid_date now = true -> valid_date d = true).
Proof.
  intros H.
  destruct (get_next_weekday_next now day_name d H)
    as (i & k & Ei & Hk & _ & -> & Hw).
  exists k. split; [exact Hk|]. split; [reflexivity|].
  split; [unfold toordinal; cbn [year month day]; lia|].
  split; [now rewrite Hw|]. split.
  - intros j Hj. clear Hw. unfold weekday, toordinal.
    cbn [year month day]. intros F.
    match type of F with
    | (?a mod 7 = ?b mod 7)%Z =>
        pose proof (Z.div_mod a 7 ltac:(lia)) as D1;
        pose proof (Z.div_mod b 7 ltac:(lia)) as D2
    end.
    rewrite F in D1. lia.
  - rewrite get_next_weekday_unfold, Ei in H. unfold date_replace_day in H.
    destruct ((1 <=? day now + days_ahead now i)
              && (day now + days_ahead now i
                  <=? days_in_month (year now) (month now)))%Z eqn:B;
      [|discriminate].
    injection H as H.
    unfold valid_date. cbn [year month day]. intros V.
    rewrite !andb_true_iff in V. destruct V as [[[[[V1 V2] V3] V4] V5] V6].
    rewrite V1, V2, V3, V4. rewrite <- H. exact B.
Qed.

(** X2: a name that is not one of the seven day names once lower-cased
    makes the helper raise [ValueError], whatever the date. *)
Theorem get_next_weekday_unknown_name (now : date) (day_name : str) :
  ~ In (str_lower day_name) days ->
  get_next_weekday now day_name = Raise ValueError.
Proof.
  intros H. rewrite get_next_weekday_unfold.
  now rewrite (list_index_not_in _ _ H).
Qed.

(** X3: the helper adds to the day of the month and does not roll over.
    With at least seven days left in the month every day name gets a
    date; on the last day of a month every name raises [ValueError]. *)
Theorem get_next_weekday_month_end (now : date) (day_name : str) :
  valid_date now = true ->
  ((day now + 7 <= days_in_month (year now) (month now))%Z ->
   In (str_lower day_name) days ->
   exists d, get_next_weekday now day_name = Ok d)
  /\ (day now = days_in_month (year now) (month now) ->
      get_next_weekday now day_name = Raise ValueError).
Proof.
  intros V. unfold valid_date in V. rewrite !andb_true_iff in V.
  destruct V as [[[[[V1 V2] V3] V4] V5] V6].
  apply Z.leb_le in V5, V6. rewrite get_next_weekday_unfold. split.
  - intros Hroom Hin. destruct (list_index_in _ _ Hin) as [i Ei].
    rewrite Ei. pose proof (list_index_days_range _ _ Ei) as Hi.
    pose proof (days_ahead_range now i Hi) as Hk.
    unfold date_replace_day.
    replace (1 <=? day now + days_ahead now i)%Z with true
      by (symmetry; apply Z.leb_le; lia).
    replace (day now + days_ahead now i
             <=? days_in_month (year now) (month now))%Z with true
      by (symmetry; apply Z.leb_le; lia).
    cbn. eauto.
  - intros Hlast.
    destruct (list_index days (str_lower day_name)) as [i|e] eqn:Ei.
    + pose proof (list_index_days_range _ _ Ei) as Hi.
      pose proof (days_ahead_range now i Hi) as Hk.
      unfold date_replace_day.
      replace (day now + days_ahead now i
               <=? days_in_month (year now) (month now))%Z with false
        by (symmetry; apply Z.leb_gt; lia).
      now rewrite andb_false_r.
    + destruct (in_dec (list_eq_dec N.eq_dec) (str_lower day_name) days)
        as [Hin|Hout].
      * destruct (list_index_in _ _ Hin) as [i Hi]. congruence.
      * rewrite (list_index_not_in _ _ Hout) in Ei. congruence.
Qed.

Lemma same_letter_lower (c c' : char) :
  same_letter c c' = true -> lower_char c = lower_char c'.
Proof.
  unfold same_letter, in_range. intros H. b2p H.
  destruct H as [[H|[[H1 H2] H3]]|[[H1 H2] H3]]; [now subst| |].
  - unfold lower_char, in_range.
    replace ((65 <=? c) && (c <=? 90))%N%bool with true
      by (symmetry; apply andb_true_iff; split; apply N.leb_le; lia).
    replace ((65 <=? c') && (c' <=? 90))%N%bool with false
      by (symmetry; apply andb_false_iff; right; apply N.leb_gt; lia).
    replace (c' =? 304)%N with false by (symmetry; apply N.eqb_neq; lia).
    replace (c' =? 8490)%N with false by (symmetry; apply N.eqb_neq; lia).
    now rewrite H3.
  - unfold lower_char, in_range.
    replace ((65 <=? c') && (c' <=? 90))%N%bool with true
      by (symmetry; apply andb_true_iff; split; apply N.leb_le; lia).
    replace ((65 <=? c) && (c <=? 90))%N%bool with false
      by (symmetry; apply andb_false_iff; right; apply N.leb_gt; lia).
    replace (c =? 304)%N with false by (symmetry; apply N.eqb_neq; lia).
    replace (c =? 8490)%N with false by (symmetry; apply N.eqb_neq; lia).
    now rewrite H3.
Qed.

Lemma same_text_lower (s s' : str) :
  same_text s s' -> str_lower s = str_lower s'.
Proof.
  induction 1 as [|c c' s s' Hc _ IH]; [reflexivity|].
  cbn [str_lower flat_map]. fold (str_lower s) (str_lower s').
  now rewrite (same_letter_lower _ _ Hc), IH.
Qed.

(** X4: the helper does not look at the case of ASCII letters in the day
    name. *)
Theorem get_next_weekday_ignores_case (now : date) (day_name name' : str) :
  same_text day_name name' ->
  get_next_weekday now name' = get_next_weekday now day_name.
Proof.
  intros H. rewrite !get_next_weekday_unfold.
  now rewrite (same_text_lower _ _ H).
Qed.

(** ** The parser: further properties *)

Lemma subseq_refl (s : str) : subseq s s.
Proof. induction s; constructor; auto. Qed.

Lemma subseq_trans (a b c : str) : subseq a b -> subseq b c -> subseq a c.
Proof.
  intros Hab Hbc. revert a Hab.
  induction Hbc as [|x b c _ IH|x b c _ IH]; intros a Hab.
  - exact Hab.
  - inversion Hab; subst; constructor; auto.
  - constructor. auto.
Qed.

Lemma subseq_app_l (x s : str) : subseq s (x ++ s).
Proof. induction x; [apply subseq_refl|now constructor]. Qed.

Lemma subseq_app_r (s y : str) : subseq s (s ++ y).
Proof.
  induction s as [|c s IH]; [|now constructor].
  induction y; constructor; auto.
Qed.

Lemma subseq_length (a b : str) : subseq a b -> length a <= length b.
Proof. induction 1; cbn [length]; lia. Qed.

Lemma subseq_strip (s : str) : subseq (strip s) s.
Proof.
  destruct (lstrip_suffix s) as [x Ex].
  destruct (rstrip_prefix (lstrip s)) as [y Ey].
  apply subseq_trans with (b := lstrip s).
  - unfold strip. rewrite Ey at 2. apply subseq_app_r.
  - rewrite Ex at 2. apply subseq_app_l.
Qed.

(** Whatever the pattern, the scan of [re.sub] and [str.replace] only
    leaves characters out. *)
Lemma subseq_sub_from (m : matcher) (s : str) :
  forall k p, subseq (sub_from m k p s) s.
Proof.
  induction s as [|c s IH]; intros k p; [constructor|].
  cbn [sub_from]. destruct k as [|k]; [|constructor; apply IH].
  destruct (m p (c :: s)) as [[|j]|]; constructor; apply IH.
Qed.

Lemma parse_dates_subseq (text : str) (pats : list (regex * date_func)) :
  forall r0 r, parse_dates pats text r0 = Ok r ->
  subseq (title r0) text -> subseq (title r) text.
Proof.
  induction pats as [|[pattern f] rest IH]; intros r0 r; cbn [parse_dates].
  - now intros [= <-].
  - destruct (re_search true pattern text) as [m|]; [|apply IH].
    unfold callable. destruct (call0 f) as [d|e]; cbn [bind try_except];
      [|apply IH].
    intros [= <-] _. cbn [title set_title].
    eapply subseq_trans; [apply subseq_strip|apply subseq_sub_from].
Qed.

Lemma parse_tags_subseq (text : str) (r : ParseResult) :
  subseq (title (parse_tags text r)) (title r).
Proof.
  unfold parse_tags.
  destruct (re_findall false tag_pattern text); [apply subseq_refl|].
  cbn [title set_title set_tags].
  eapply subseq_trans; [apply subseq_strip|apply subseq_sub_from].
Qed.

Lemma parse_priority_subseq (text : str) (r : ParseResult) :
  subseq (title (parse_priority text r)) (title r).
Proof.
  unfold parse_priority.
  destruct (str_in (lit "!!!") text).
  - cbn [title set_title set_priority].
    eapply subseq_trans; [apply subseq_strip|apply subseq_sub_from].
  - destruct (str_in (lit "!!") text); [|apply subseq_refl].
    cbn [title set_title set_priority].
    eapply subseq_trans; [apply subseq_strip|apply subseq_sub_from].
Qed.

(** X5: the parser only deletes. The title of the result is the input
    with some characters left out, in the input's order and spelling, and
    so never longer than the input. *)
Theorem parse_title_subseq (now : date) (text : str) :
  exists r,
    parse_natural_language now text = Ok r
    /\ subseq (title r) text
    /\ length (title r) <= length text.
Proof.
  unfold parse_natural_language.
  destruct (parse_dates_total text (date_patterns now)
              (mkresult (strip text) None None None)) as [r1 [E1 _]];
    [apply trimmed_strip|].
  rewrite E1. cbn [bind]. eexists. split; [reflexivity|].
  assert (S : subseq (title (parse_priority text (parse_tags text r1))) text).
  { eapply subseq_trans; [apply parse_priority_subseq|].
    eapply subseq_trans; [apply parse_tags_subseq|].
    apply (parse_dates_subseq _ _ _ _ E1). cbn [title]. apply subseq_strip. }
  split; [exact S|apply subseq_length, S].
Qed.

Lemma word_run_firstn (s : str) :
  forallb is_word (firstn (word_run s) s) = true.
Proof.
  induction s as [|c s IH]; [reflexivity|].
  cbn [word_run]. destruct (is_word c) eqn:E; [|reflexivity].
  cbn [firstn forallb]. now rewrite E.
Qed.

Lemma starts_with_firstn (n : nat) (s : str) :
  starts_with (firstn n s) s = true.
Proof.
  revert s. induction n as [|n IH]; intros [|c s]; try reflexivity.
  cbn [firstn starts_with]. unfold char_eqb. now rewrite N.eqb_refl, IH.
Qed.

Lemma hashtag_words_are_words (s : str) :
  Forall (fun w => w <> [] /\ forallb is_word w = true
                   /\ str_in (hash :: w) s = true) (hashtag_words s).
Proof.
  induction s as [|c s IH]; [constructor|].
  assert (W : Forall (fun w => w <> [] /\ forallb is_word w = true
                               /\ str_in (hash :: w) (c :: s) = true)
                (hashtag_words s)).
  { eapply Forall_impl; [|exact IH]. intros w (H1 & H2 & H3).
    repeat split; auto. cbn [str_in]. rewrite H3. apply orb_true_r. }
  cbn [hashtag_words].
  destruct (char_eqb c hash) eqn:Ec; cbn [andb]; [|exact W].
  destruct (word_run s) as [|n] eqn:En; cbn [Nat.eqb negb]; [exact W|].
  constructor; [|exact W]. rewrite <- En. repeat split.
  - rewrite En. destruct s; [discriminate|]. discriminate.
  - apply word_run_firstn.
  - cbn [str_in starts_with]. unfold char_eqb in *.
    apply N.eqb_eq in Ec. subst c. rewrite N.eqb_refl.
    now rewrite starts_with_firstn.
Qed.

(** X6: every tag is a non-empty run of word characters (letters, digits,
    underscore: no hash, no whitespace, no exclamation mark) that stands
    right after a hash in the input; the list of tags, when present, is
    not empty. *)
Theorem parse_tags_are_words (now : date) (text : str) (r : ParseResult)
    (l : list str) :
  parse_natural_language now text = Ok r ->
  tags r = Some l ->
  l <> []
  /\ Forall (fun w => w <> [] /\ forallb is_word w = true
                      /\ str_in (hash :: w) text = true) l.
Proof.
  rewrite parse_unfold. intros [= <-]. fold (parsed now text).
  rewrite parsed_tags. pose proof (hashtag_words_are_words text) as W.
  destruct (hashtag_words text) as [|w ws]; [discriminate|].
  intros [= <-]. split; [discriminate|exact W].
Qed.

(** X7: the due date is set exactly when "today" occurs as a whole word,
    or "tomorrow" does and the day after [now] is still in [now]'s month.
    It is then [now] or the day after it, a valid date when [now] is
    one. *)
Theorem parse_due_date_range (now : date) (text : str) :
  valid_date now = true ->
  exists r,
    parse_natural_language now text = Ok r
    /\ (due_date r <> None <->
        has_word today text = true
        \/ (has_word tomorrow text = true
            /\ (day now < days_in_month (year now) (month now))%Z))
    /\ (forall d, due_date r = Some d ->
          valid_date d = true
          /\ (d = now \/ d = mkdate (year now) (month now) (day now + 1))
          /\ (toordinal now <= toordinal d <= toordinal now + 1)%Z).
Proof.
  intros V. rewrite parse_unfold. eexists. split; [reflexivity|].
  fold (parsed now text). rewrite parsed_due_date.
  assert (V' := V). unfold valid_date in V'. rewrite !andb_true_iff in V'.
  destruct V' as [[[[[V1 V2] V3] V4] V5] V6]. apply Z.leb_le in V5, V6.
  unfold date_stage. destruct (has_word today text).
  - cbn [due_date set_title set_due_date]. split.
    + split; [auto|discriminate].
    + intros d [= <-]. split; [exact V|]. split; [now left|lia].
  - destruct (has_word tomorrow text).
    + unfold date_replace_day.
      destruct (day now + 1 <=? days_in_month (year now) (month now))%Z
        eqn:L; [apply Z.leb_le in L|apply Z.leb_gt in L].
      * replace (1 <=? day now + 1)%Z with true
          by (symmetry; apply Z.leb_le; lia).
        cbn [andb due_date set_title set_due_date]. split.
        -- split; [intros _; right; split; [reflexivity|lia]|discriminate].
        -- intros d [= <-]. split; [|split; [now right|]].
           ++ unfold valid_date. cbn [year month day].
              rewrite V1, V2, V3, V4. cbn [andb].
              apply andb_true_iff. split; apply Z.leb_le; lia.
           ++ unfold toordinal. cbn [year month day]. lia.
      * rewrite andb_false_r. cbn [due_date empty_result]. split.
        -- split; [easy|]. intros [F|[_ F]]; [discriminate|lia].
        -- discriminate.
    + cbn [due_date empty_result]. split.
      * split; [easy|]. intros [F|[F _]]; discriminate.
      * discriminate.
Qed.

Lemma strip_trimmed (s : str) : trimmed s = true -> strip s = s.
Proof.
  unfold trimmed. intros H. apply andb_true_iff in H as [H1 H2].
  assert (L : forall t, starts_clean t = true -> lstrip t = t).
  { intros [|c t]; [reflexivity|]. cbn. intros E.
    apply negb_true_iff in E. now rewrite E. }
  unfold strip, rstrip. rewrite (L s H1), (L (rev s) H2).
  apply rev_involutive.
Qed.

Lemma str_in_strip_false (p s : str) :
  str_in p s = false -> str_in p (strip s) = false.
Proof.
  intros H. apply not_true_is_false. intros F.
  apply str_in_strip in F. congruence.
Qed.

Lemma parsed_plain (now : date) (text : str) :
  has_word today text = false -> has_word tomorrow text = false ->
  hashtag_words text = [] -> str_in (lit "!!") text = false ->
  parsed now text = empty_result text.
Proof.
  intros H1 H2 H3 H4. unfold parsed, date_stage. rewrite H1, H2.
  unfold parse_tags. rewrite re_findall_hash, H3.
  unfold parse_priority. rewrite H4.
  destruct (str_in (lit "!!!") text) eqn:E; [|reflexivity].
  apply (str_in_pattern_prefix (lit "!!") (lit "!")) in E. congruence.
Qed.

(** X8: text without markers passes through. With no whole word "today"
    or "tomorrow", no hashtag and no "!!" in the input, the result is the
    stripped input as title and nothing else, and parsing that title
    again gives the same result. *)
Theorem parse_plain_text (now : date) (text : str) :
  has_word today text = false -> has_word tomorrow text = false ->
  hashtag_words text = [] -> str_in (lit "!!") text = false ->
  parse_natural_language now text = Ok (mkresult (strip text) None None None)
  /\ parse_natural_language now (strip text)
     = Ok (mkresult (strip text) None None None).
Proof.
  intros H1 H2 H3 H4. rewrite !parse_unfold. fold (parsed now text).
  fold (parsed now (strip text)). split.
  - now rewrite parsed_plain.
  - rewrite parsed_plain.
    + unfold empty_result. now rewrite strip_trimmed by apply trimmed_strip.
    + now rewrite has_word_strip.
    + now rewrite has_word_strip.
    + now apply hashtag_words_strip.
    + now apply str_in_strip_false.
Qed.

(** ** Letter case *)

Ltac b2p_goal :=
  repeat first [ rewrite orb_true_iff | rewrite andb_true_iff
               | rewrite N.eqb_eq | rewrite N.leb_le | rewrite N.ltb_lt ].

Lemma same_letter_cases (c c' : char) :
  same_letter c c' = true ->
  c = c' \/ ((65 <= c <= 90)%N /\ c' = (c + 32)%N)
  \/ ((65 <= c' <= 90)%N /\ c = (c' + 32)%N).
Proof.
  unfold same_letter, in_range. intros H. b2p H. lia.
Qed.

Lemma ascii_letter_class (c : char) :
  (65 <= c <= 90)%N \/ (97 <= c <= 122)%N ->
  is_space c = false /\ is_word c = true
  /\ char_eqb c hash = false /\ char_eqb bang c = false.
Proof.
  intros H. repeat split.
  - apply not_true_is_false. unfold is_space, in_range. intros F.
    b2p F. lia.
  - unfold is_word. replace (c <? 128)%N with true
      by (symmetry; apply N.ltb_lt; lia).
    unfold in_range. b2p_goal. lia.
  - apply N.eqb_neq. unfold hash. lia.
  - apply N.eqb_neq. unfold bang. lia.
Qed.

Lemma same_letter_class (c c' : char) :
  same_letter c c' = true ->
  is_space c = is_space c' /\ is_word c = is_word c'
  /\ char_eqb c hash = char_eqb c' hash
  /\ char_eqb bang c = char_eqb bang c'.
Proof.
  intros H. destruct (same_letter_cases _ _ H) as [->|[[H1 ->]|[H1 ->]]].
  - auto.
  - destruct (ascii_letter_class c) as (A1 & A2 & A3 & A4); [lia|].
    destruct (ascii_letter_class (c + 32)%N) as (B1 & B2 & B3 & B4); [lia|].
    now rewrite A1, A2, A3, A4, B1, B2, B3, B4.
  - destruct (ascii_letter_class c') as (A1 & A2 & A3 & A4); [lia|].
    destruct (ascii_letter_class (c' + 32)%N) as (B1 & B2 & B3 & B4); [lia|].
    now rewrite A1, A2, A3, A4, B1, B2, B3, B4.
Qed.

Lemma same_letter_ci_eq (p c c' : char) :
  in_range 97%N 122%N p = true -> same_letter c c' = true ->
  ci_eq p c = ci_eq p c'.
Proof.
  intros Hp H. apply same_letter_cases in H. unfold in_range in Hp. b2p Hp.
  apply eq_true_iff_eq. unfold ci_eq, in_range.
  split; intros F; b2p F; b2p_goal; lia.
Qed.

Lemma same_text_lstrip (s s' : str) :
  same_text s s' -> same_text (lstrip s) (lstrip s').
Proof.
  induction 1 as [|c c' s s' Hc Hs IH]; [constructor|].
  cbn [lstrip]. destruct (same_letter_class _ _ Hc) as (E & _).
  rewrite <- E. destruct (is_space c); [exact IH|now constructor].
Qed.

Lemma same_text_rev (s s' : str) :
  same_text s s' -> same_text (rev s) (rev s').
Proof.
  induction 1 as [|c c' s s' Hc Hs IH]; [constructor|].
  cbn [rev]. apply Forall2_app; [exact IH|]. now repeat constructor.
Qed.

Lemma same_text_strip (s s' : str) :
  same_text s s' -> same_text (strip s) (strip s').
Proof.
  intros H. unfold strip, rstrip.
  now apply same_text_rev, same_text_lstrip, same_text_rev, same_text_lstrip.
Qed.

Lemma same_text_firstn (n : nat) (s s' : str) :
  same_text s s' -> same_text (firstn n s) (firstn n s').
Proof.
  intros H. revert n. induction H as [|c c' s s' Hc Hs IH]; intros [|n];
    cbn [firstn]; try constructor; [exact Hc|apply IH].
Qed.

Lemma same_text_nth (s s' : str) :
  same_text s s' -> forall n, same_prev (nth_error s n) (nth_error s' n).
Proof.
  induction 1 as [|c c' s s' Hc Hs IH]; intros [|n]; cbn; auto.
Qed.

Lemma same_text_length (s s' : str) :
  same_text s s' -> length s = length s'.
Proof. apply Forall2_length. Qed.

Lemma same_prev_word (p p' : option char) :
  same_prev p p' -> is_word_at p = is_word_at p'.
Proof.
  destruct p as [c|], p' as [c'|]; cbn; try easy.
  intros H. apply (same_letter_class _ _ H).
Qed.

Lemma same_text_word_run (s s' : str) :
  same_text s s' -> word_run s = word_run s'.
Proof.
  induction 1 as [|c c' s s' Hc Hs IH]; [reflexivity|].
  cbn [word_run]. destruct (same_letter_class _ _ Hc) as (_ & E & _).
  now rewrite <- E, IH.
Qed.

Lemma same_text_lit_prefix (alt s s' : str) :
  lower alt = true -> same_text s s' ->
  lit_prefix true alt s = lit_prefix true alt s'.
Proof.
  intros L H. revert alt L.
  induction H as [|c c' s s' Hc Hs IH]; intros [|x alt] L; try reflexivity.
  cbn [lower forallb] in L. apply andb_true_iff in L as [Lx L].
  cbn [lit_prefix lit_eq].
  now rewrite (same_letter_ci_eq x c c' Lx Hc), (IH alt L).
Qed.

Lemma same_text_starts_bangs (n : nat) (s s' : str) :
  same_text s s' ->
  starts_with (repeat bang n) s = starts_with (repeat bang n) s'.
Proof.
  intros H. revert n. induction H as [|c c' s s' Hc Hs IH]; intros [|n];
    try reflexivity.
  cbn [repeat starts_with].
  destruct (same_letter_class _ _ Hc) as (_ & _ & _ & E).
  now rewrite E, IH.
Qed.

Lemma same_text_bangs_in (n : nat) (s s' : str) :
  same_text s s' -> str_in (repeat bang n) s = str_in (repeat bang n) s'.
Proof.
  intros H. induction H as [|c c' s s' Hc Hs IH]; [reflexivity|].
  cbn [str_in].
  rewrite (same_text_starts_bangs n (c :: s) (c' :: s')), IH;
    [reflexivity|now constructor].
Qed.

Lemma ignores_case_hash : ignores_case (re_match_at false HashWord).
Proof.
  intros p p' s s' _ H. cbn [re_match_at].
  destruct H as [|c c' s s' Hc Hs]; [reflexivity|].
  destruct (same_letter_class _ _ Hc) as (_ & _ & E & _).
  now rewrite E, (same_text_word_run _ _ Hs).
Qed.

Lemma ignores_case_words (alts : list str) :
  forallb lower alts = true -> ignores_case (re_match_at true (WordAlt alts)).
Proof.
  intros L p p' s s' Hp H. cbn [re_match_at]. unfold at_boundary.
  assert (Hh : is_word_at (hd_error s) = is_word_at (hd_error s')).
  { apply same_prev_word. destruct H; cbn; auto. }
  rewrite (same_prev_word _ _ Hp), Hh.
  destruct (xorb (is_word_at p') (is_word_at (hd_error s'))); [|reflexivity].
  induction alts as [|a alts IH]; [reflexivity|].
  cbn [forallb] in L. apply andb_true_iff in L as [La L].
  cbn [first_alt]. unfold match_alt. unfold at_boundary.
  rewrite (same_text_lit_prefix a s s' La H), (IH L).
  assert (B : is_word_at (match length a with
                          | 0 => p
                          | S k => nth_error s k
                          end)
              = is_word_at (match length a with
                            | 0 => p'
                            | S k => nth_error s' k
                            end)).
  { apply same_prev_word. destruct (length a); [exact Hp|].
    now apply same_text_nth. }
  rewrite B.
  now rewrite (same_prev_word _ _ (same_text_nth _ _ H (length a))).
Qed.

Lemma ignores_case_bangs (n : nat) : ignores_case (lit_match (repeat bang n)).
Proof.
  intros p p' s s' _ H. unfold lit_match.
  now rewrite (same_text_starts_bangs n s s' H).
Qed.

Lemma same_text_sub_from (m : matcher) (s s' : str) :
  ignores_case m -> same_text s s' ->
  forall k p p', same_prev p p' ->
  same_text (sub_from m k p s) (sub_from m k p' s').
Proof.
  intros Hm H. induction H as [|c c' s s' Hc Hs IH]; intros k p p' Hp;
    [constructor|].
  cbn [sub_from]. destruct k as [|k]; [|now apply IH].
  rewrite (Hm p p' (c :: s) (c' :: s') Hp) by now constructor.
  destruct (m p' (c' :: s')) as [[|j]|].
  - constructor; [exact Hc|now apply IH].
  - now apply IH.
  - constructor; [exact Hc|now apply IH].
Qed.

Lemma same_text_search_from (m : matcher) (s s' : str) :
  ignores_case m -> same_text s s' ->
  forall p p', same_prev p p' ->
  found (search_from m p s) = found (search_from m p' s').
Proof.
  intros Hm H. induction H as [|c c' s s' Hc Hs IH]; intros p p' Hp;
    [reflexivity|].
  cbn [search_from].
  rewrite (Hm p p' (c :: s) (c' :: s') Hp) by now constructor.
  destruct (m p' (c' :: s')) as [[|j]|]; [now apply IH|reflexivity|].
  now apply IH.
Qed.

Lemma same_text_finditer_from (m : matcher) (s s' : str) :
  ignores_case m -> same_text s s' ->
  forall k p p', same_prev p p' ->
  Forall2 same_text (finditer_from m k p s) (finditer_from m k p' s').
Proof.
  intros Hm H. induction H as [|c c' s s' Hc Hs IH]; intros k p p' Hp;
    [constructor|].
  cbn [finditer_from]. destruct k as [|k]; [|now apply IH].
  rewrite (Hm p p' (c :: s) (c' :: s') Hp) by now constructor.
  destruct (m p' (c' :: s')) as [[|j]|]; [now apply IH| |now apply IH].
  constructor; [|now apply IH].
  apply same_text_firstn. now constructor.
Qed.

Lemma same_text_map_tl (l l' : list str) :
  Forall2 same_text l l' ->
  Forall2 same_text (map (@tl char) l) (map (@tl char) l').
Proof.
  induction 1 as [|w w' l l' Hw _ IH]; [constructor|].
  cbn [map]. constructor; [|exact IH].
  destruct Hw; [constructor|assumption].
Qed.

Lemma same_text_hashtag_words (s s' : str) :
  same_text s s' -> Forall2 same_text (hashtag_words s) (hashtag_words s').
Proof.
  intros H. rewrite <- !re_findall_hash. unfold re_findall, tag_pattern.
  apply same_text_map_tl.
  apply same_text_finditer_from; [apply ignores_case_hash|exact H|exact I].
Qed.

Lemma same_text_has_word (kw : str) (s s' : str) :
  plain kw = true -> lower kw = true -> same_text s s' ->
  has_word kw s = has_word kw s'.
Proof.
  intros P L H. rewrite <- !re_search_word by exact P. unfold re_search.
  apply same_text_search_from; [|exact H|exact I].
  apply ignores_case_words. cbn [forallb]. now rewrite L.
Qed.

Lemma same_text_delete_word (kw : str) (s s' : str) :
  plain kw = true -> lower kw = true -> same_text s s' ->
  same_text (delete_word kw s) (delete_word kw s').
Proof.
  intros P L H. rewrite <- !re_sub_word by exact P. unfold re_sub.
  apply same_text_sub_from; [|exact H|exact I].
  apply ignores_case_words. cbn [forallb]. now rewrite L.
Qed.

Lemma same_result_date_stage (now : date) (text text' : str) :
  same_text text text' ->
  same_result (date_stage now text (empty_result text))
    (date_stage now text' (empty_result text')).
Proof.
  intros H. unfold date_stage.
  rewrite <- (same_text_has_word today text text') by (reflexivity || exact H).
  rewrite <- (same_text_has_word tomorrow text text')
    by (reflexivity || exact H).
  assert (E : same_result (empty_result text) (empty_result text')).
  { repeat split. now apply same_text_strip. }
  destruct (has_word today text).
  - repeat split. cbn [title set_title].
    now apply same_text_strip, same_text_delete_word.
  - destruct (has_word tomorrow text); [|exact E].
    destruct (date_replace_day now (day now + 1)); [|exact E].
    repeat split. cbn [title set_title].
    now apply same_text_strip, same_text_delete_word.
Qed.

Lemma same_result_parse_tags (text text' : str) (r r' : ParseResult) :
  same_text text text' -> same_result r r' ->
  same_result (parse_tags text r) (parse_tags text' r').
Proof.
  intros H (T & D & P & G). unfold parse_tags. rewrite !re_findall_hash.
  pose proof (same_text_hashtag_words _ _ H) as F.
  destruct F as [|w w' l l' Hw Hl]; [now repeat split|].
  repeat split; cbn [title due_date priority tags set_title set_tags]; auto;
    try (now constructor).
  apply same_text_strip. unfold re_sub.
  apply same_text_sub_from; [apply ignores_case_hash|exact T|exact I].
Qed.

Lemma same_result_parse_priority (text text' : str) (r r' : ParseResult) :
  same_text text text' -> same_result r r' ->
  same_result (parse_priority text r) (parse_priority text' r').
Proof.
  intros H (T & D & P & G). unfold parse_priority.
  rewrite bangs3, bangs2.
  rewrite <- (same_text_bangs_in 3 text text' H).
  rewrite <- (same_text_bangs_in 2 text text' H).
  destruct (str_in (repeat bang 3) text).
  - repeat split; cbn [title due_date priority tags set_title set_priority];
      auto.
    apply same_text_strip. unfold str_replace.
    apply same_text_sub_from; [apply ignores_case_bangs|exact T|exact I].
  - destruct (str_in (repeat bang 2) text); [|now repeat split].
    repeat split; cbn [title due_date priority tags set_title set_priority];
      auto.
    apply same_text_strip. unfold str_replace.
    apply same_text_sub_from; [apply ignores_case_bangs|exact T|exact I].
Qed.

(** X9: the parser does not look at the case of ASCII letters. Two inputs
    that differ in letter case only give the same due date and priority,
    and titles and tags that differ in letter case only, at the same
    places. *)
Theorem parse_ignores_case (now : date) (text text' : str) :
  same_text text text' ->
  exists r r',
    parse_natural_language now text = Ok r
    /\ parse_natural_language now text' = Ok r'
    /\ same_result r r'.
Proof.
  intros H. exists (parsed now text), (parsed now text').
  split; [apply parse_unfold|]. split; [apply parse_unfold|].
  unfold parsed.
  now apply same_result_parse_priority, same_result_parse_tags,
    same_result_date_stage.
Qed.

(** ** The parse view *)

Lemma parse_value_str (now : date) (s : str) :
  parse_value now (VStr s) = Return (parsed now s).
Proof. unfold parse_value. now rewrite parse_unfold. Qed.

Lemma parse_task_cases (now : date) (get_json : outcome value) :
  parse_task now get_json =
  match get_json with
  | Throw e => (ErrorOf e, 500%Z)
  | Return data =>
      if truthy data then
        match data with
        | VDict d =>
            match dict_get d (lit "text") with
            | Some (VStr s) =>
                if truthy (VStr s)
                then (JsonOf (VDict [(lit "parsed",
                                      VDict (result_items (parsed now s)))]),
                      200%Z)
                else (error_body "Text is required", 400%Z)
            | Some t =>
                if truthy t
                then (ErrorOf (AttributeError (type_name t) "strip"), 500%Z)
                else (error_body "Text is required", 400%Z)
            | None => (error_body "Text is required", 400%Z)
            end
        | _ => (ErrorOf (AttributeError (type_name data) "get"), 500%Z)
        end
      else (error_body "Text is required", 400%Z)
  end.
Proof.
  unfold parse_task. destruct get_json as [data|e]; [|reflexivity].
  cbn [obind]. unfold missing.
  destruct (truthy data) eqn:T; [|reflexivity]. cbn [negb].
  destruct data as [| | | | |l|d|]; try reflexivity.
  cbn [value_get obind value_item].
  destruct (dict_get d (lit "text")) as [t|]; [|reflexivity].
  destruct (truthy t) eqn:Tt; cbn [negb].
  - cbn [obind]. destruct t; try reflexivity.
    rewrite parse_value_str, Tt. reflexivity.
  - destruct t; try reflexivity. now rewrite Tt.
Qed.

Lemma truthy_str (s : str) : truthy (VStr s) = true <-> s <> [].
Proof. destruct s; cbn; split; congruence. Qed.

(** X10: the parse view answers 200 exactly when the body is a JSON
    object whose ["text"] is a non-empty string, and then returns the
    fields the parser extracts from it; a string text never gives a 500. *)
Theorem parse_task_ok (now : date) (get_json : outcome value) :
  (forall d s, get_json = Return (VDict d) ->
     dict_get d (lit "text") = Some (VStr s) ->
     parse_task now get_json =
     if Nat.eqb (length s) 0 then (error_body "Text is required", 400%Z)
     else (JsonOf (VDict [(lit "parsed",
                           VDict (result_items (parsed now s)))]), 200%Z))
  /\ (forall s, parse_natural_language now s = Ok (parsed now s))
  /\ (snd (parse_task now get_json) = 200%Z ->
      exists d s, get_json = Return (VDict d)
                  /\ dict_get d (lit "text") = Some (VStr s) /\ s <> []).
Proof.
  split; [|split].
  - intros d s -> Ht. rewrite parse_task_cases, Ht.
    destruct d as [|kv d]; [discriminate|].
    cbn [truthy length Nat.eqb negb]. now destruct (length s =? 0).
  - intros s. apply parse_unfold.
  - rewrite parse_task_cases. destruct get_json as [data|e]; [|discriminate].
    destruct (truthy data); [|discriminate].
    destruct data as [| | | | |l|d|]; try discriminate.
    destruct (dict_get d (lit "text")) as [t|] eqn:Ht; [|discriminate].
    destruct t as [| | | |s| | |];
      try (destruct (truthy _); discriminate).
    destruct (truthy (VStr s)) eqn:Ts; [|discriminate].
    intros _. exists d, s. split; [reflexivity|]. split; [exact Ht|].
    now apply truthy_str.
Qed.

(** X11: what the parse view rejects. A falsy body (null, false, 0, an
    empty string, list or object) or a missing or falsy ["text"] is a 400
    "Text is required"; a truthy body that is no object, a truthy text
    that is no string, and an exception of [get_json] end in the
    catch-all 500. *)
Theorem parse_task_rejects (now : date) (get_json : outcome value) :
  (snd (parse_task now get_json) = 400%Z <->
   exists data,
     get_json = Return data
     /\ (truthy data = false
         \/ exists d, data = VDict d
                      /\ forall t, dict_get d (lit "text") = Some t ->
                                   truthy t = false))
  /\ (forall data, get_json = Return data -> truthy data = true ->
      (forall d, data <> VDict d) ->
      parse_task now get_json
      = (ErrorOf (AttributeError (type_name data) "get"), 500%Z))
  /\ (forall d t, get_json = Return (VDict d) ->
      dict_get d (lit "text") = Some t -> truthy t = true ->
      (forall s, t <> VStr s) ->
      parse_task now get_json
      = (ErrorOf (AttributeError (type_name t) "strip"), 500%Z))
  /\ (forall e, get_json = Throw e ->
      parse_task now get_json = (ErrorOf e, 500%Z)).
Proof.
  rewrite parse_task_cases. split; [|split; [|split]].
  - split.
    + destruct get_json as [data|e]; [|discriminate].
      intros H. exists data. split; [reflexivity|].
      destruct (truthy data) eqn:T; [|now left]. right.
      destruct data as [| | | | |l|d|]; try discriminate.
      exists d. split; [reflexivity|]. intros t Ht. rewrite Ht in H.
      destruct (truthy t) eqn:Tt; [|reflexivity].
      exfalso. destruct t; try rewrite Tt in H; cbn in H; discriminate H.
    + intros (data & -> & [T|(d & -> & Ht)]); [now rewrite T|].
      destruct (truthy (VDict d)); [|reflexivity].
      destruct (dict_get d (lit "text")) as [t|]; [|reflexivity].
      pose proof (Ht t eq_refl) as F. destruct t; rewrite ?F; reflexivity.
  - intros data -> T Hd. rewrite T.
    destruct data; try reflexivity. now destruct (Hd d).
  - intros d t -> Ht T Hs.
    destruct d as [|kv d]; [discriminate|].
    cbn [truthy length Nat.eqb negb]. rewrite Ht, T.
    destruct t; try reflexivity. now destruct (Hs s).
  - now intros e ->.
Qed.

Lemma hashtag_words_blank (s : str) :
  forallb is_space s = true -> hashtag_words s = [].
Proof.
  induction s as [|c s IH]; [reflexivity|].
  cbn [forallb]. intros H. apply andb_true_iff in H as [Hc Hs].
  cbn [hashtag_words]. rewrite (hash_not_space _ Hc). cbn [andb]. auto.
Qed.

Lemma has_word_blank (kw s : str) :
  forallb is_space s = true -> has_word kw s = false.
Proof.
  intros H. unfold has_word.
  pose proof (tokens_blank_prefix s [] H) as E. rewrite !app_nil_r in E.
  rewrite E. apply existsb_kw_seps.
Qed.

Lemma parsed_blank (now : date) (s : str) :
  forallb is_space s = true -> parsed now s = mkresult [] None None None.
Proof.
  intros H. rewrite parsed_plain.
  - unfold empty_result. now rewrite strip_all_space.
  - now apply has_word_blank.
  - now apply has_word_blank.
  - now apply hashtag_words_blank.
  - rewrite bangs2. now apply no_bangs_in_blank.
Qed.

(** X12: whitespace is enough to pass the check of the parse view. A text
    that is not empty and holds whitespace only is answered with 200 and
    an empty title, no other field. *)
Theorem parse_task_blank_text (now : date) (d : dict) (s : str) :
  dict_get d (lit "text") = Some (VStr s) ->
  s <> [] -> forallb is_space s = true ->
  parse_task now (Return (VDict d))
  = (JsonOf (VDict [(lit "parsed", VDict [(lit "title", VStr [])])]),
     200%Z).
Proof.
  intros Ht Hs Hb. rewrite parse_task_cases, Ht.
  destruct d as [|kv d]; [discriminate|].
  cbn [truthy length Nat.eqb negb].
  destruct s as [|c s]; [congruence|]. cbn [length Nat.eqb negb].
  now rewrite (parsed_blank now (c :: s) Hb).
Qed.

(** ** The create view *)

Lemma str_eqb_refl (a : str) : str_eqb a a = true.
Proof. now apply str_eqb_eq. Qed.

Lemma dict_get_set (d : dict) (k : str) (v : value) (k' : str) :
  dict_get (dict_set d k v) k'
  = if str_eqb k k' then Some v else dict_get d k'.
Proof.
  induction d as [|[k0 v0] d IH]; cbn [dict_set dict_get]; [reflexivity|].
  destruct (str_eqb k0 k) eqn:E; cbn [dict_get].
  - apply str_eqb_eq in E. subst k0. now destruct (str_eqb k k').
  - destruct (str_eqb k0 k') eqn:E'; [|exact IH].
    destruct (str_eqb k k') eqn:E''; [|reflexivity].
    apply str_eqb_eq in E', E''. subst. now rewrite str_eqb_refl in E.
Qed.

Ltac split_keys k :=
  repeat match goal with
         | |- context [str_eqb ?a k] =>
             let E := fresh "E" in destruct (str_eqb a k) eqn:E
         end;
  repeat match goal with
         | E : str_eqb _ _ = true |- _ => apply str_eqb_eq in E
         end;
  try reflexivity; try (subst; discriminate).

(** After [data.update(parsed)] a key of the parser's result has the
    parser's value, any other key the value it had. *)
Lemma dict_get_update_items (d : dict) (r : ParseResult) (k : str) :
  dict_get (dict_update d (result_items r)) k
  = match dict_get (result_items r) k with
    | Some v => Some v
    | None => dict_get d k
    end.
Proof.
  destruct r as [t dd tg pr]. unfold result_items, dict_update.
  cbn [title due_date tags priority].
  destruct dd, tg, pr; cbn [app fold_left fst snd dict_get];
    rewrite !dict_get_set; split_keys k.
Qed.

Lemma dict_get_truthy (d : dict) (k : str) (v : value) :
  dict_get d k = Some v -> truthy (VDict d) = true.
Proof. now destruct d. Qed.

Lemma result_items_other (r : ParseResult) (k : str) :
  str_eqb (lit "title") k = false -> str_eqb (lit "due_date") k = false ->
  str_eqb (lit "tags") k = false -> str_eqb (lit "priority") k = false ->
  dict_get (result_items r) k = None.
Proof.
  intros H1 H2 H3 H4. destruct r as [t dd tg pr]. unfold result_items.
  cbn [title due_date tags priority].
  destruct dd, tg, pr; cbn [app dict_get]; now rewrite ?H1, ?H2, ?H3, ?H4.
Qed.

Lemma create_task_nlp (now : date) (uid : Z) (d : dict) (s : str)
    (flag : value) :
  dict_get d (lit "title") = Some (VStr s) -> s <> [] ->
  dict_get d (lit "use_nlp") = Some flag -> truthy flag = true ->
  create_task now (Return uid) (Return (VDict d))
  = handle
      (persist
         (mkargs (VStr (title (parsed now s)))
            (dict_get_or d (lit "description") (VStr []))
            match priority (parsed now s) with
            | Some p => VInt p
            | None => dict_get_or d (lit "priority") (VInt 1)
            end
            (dict_get_or d (lit "project_id") VNone) uid)
         (dict_update d (result_items (parsed now s)))).
Proof.
  intros Ht Hs Hf Tf. unfold create_task. cbn [obind]. unfold missing.
  rewrite (dict_get_truthy _ _ _ Ht). cbn [negb value_get obind].
  rewrite Ht. replace (truthy (VStr s)) with true
    by (symmetry; now apply truthy_str).
  cbn [negb obind value_get]. rewrite Hf, Tf. cbn [value_item obind].
  rewrite Ht. cbn [obind]. rewrite parse_value_str.
  cbn [obind value_item value_get].
  rewrite !dict_get_update_items.
  set (r := parsed now s).
  assert (K1 : dict_get (result_items r) (lit "title") = Some (VStr (title r)))
    by reflexivity.
  rewrite K1. cbn [obind].
  rewrite (result_items_other r (lit "description")) by reflexivity.
  rewrite (result_items_other r (lit "project_id")) by reflexivity.
  assert (K2 : dict_get (result_items r) (lit "priority")
               = option_map VInt (priority r)).
  { destruct r as [t dd tg pr]. now destruct dd, tg, pr. }
  rewrite K2. unfold dict_get_or.
  destruct (priority r); cbn [option_map]; reflexivity.
Qed.

(** X13: with [use_nlp] set, the fields the parser extracts from the
    title go before those of the request. The [Task] gets the cleaned
    title; its priority is that of the title's marker if there is one,
    otherwise the request's, otherwise 1; the due date and tags later
    read from the request dictionary are the parser's when it found any,
    otherwise the request's own. *)
Theorem create_task_nlp_merge (now : date) (uid : Z) (d : dict) (s : str)
    (flag : value) :
  dict_get d (lit "title") = Some (VStr s) -> s <> [] ->
  dict_get d (lit "use_nlp") = Some flag -> truthy flag = true ->
  let r := parsed now s in
  let data := dict_update d (result_items r) in
  parse_natural_language now s = Ok r
  /\ create_task now (Return uid) (Return (VDict d))
     = handle
         (persist
            (mkargs (VStr (title r))
               (dict_get_or d (lit "description") (VStr []))
               match priority r with
               | Some p => VInt p
               | None => dict_get_or d (lit "priority") (VInt 1)
               end
               (dict_get_or d (lit "project_id") VNone) uid)
            data)
  /\ dict_get data (lit "due_date")
     = match due_date r with
       | Some dt => Some (VDate dt)
       | None => dict_get d (lit "due_date")
       end
  /\ dict_get data (lit "tags")
     = match tags r with
       | Some l => Some (VList (map VStr l))
       | None => dict_get d (lit "tags")
       end.
Proof.
  intros Ht Hs Hf Tf r data. split; [apply parse_unfold|].
  split; [now apply create_task_nlp with (flag := flag)|].
  unfold data. rewrite !dict_get_update_items.
  destruct r as [t dd tg pr]. cbn [due_date tags].
  split; destruct dd, tg, pr; reflexivity.
Qed.

Lemma word_not_space (c : char) : is_word c = true -> is_space c = false.
Proof.
  intros H. destruct (is_space c) eqn:E; [|reflexivity].
  apply space_not_word in E. congruence.
Qed.

Lemma word_not_bang (c : char) : is_word c = true -> char_eqb bang c = false.
Proof.
  intros H. unfold char_eqb, bang. apply N.eqb_neq. intros <-.
  discriminate H.
Qed.

Lemma no_bangs_in_tag (n : nat) (s : str) :
  forallb (fun c => char_eqb c hash || is_word c) s = true ->
  str_in (repeat bang (S n)) s = false.
Proof.
  induction s as [|c s IH]; [reflexivity|].
  cbn [forallb]. intros H. apply andb_true_iff in H as [Hc Hs].
  cbn [str_in repeat starts_with].
  replace (char_eqb bang c) with false; [cbn; auto|].
  symmetry. apply orb_true_iff in Hc as [Hc|Hc].
  - unfold char_eqb, hash, bang in *. apply N.eqb_eq in Hc. now subst c.
  - now apply word_not_bang.
Qed.

(** The parser on a title that is one hashtag, its word no date word. *)
Lemma parsed_hashtag_only (now : date) (w : str) :
  w <> [] -> forallb is_word w = true ->
  ci_match today w = false -> ci_match tomorrow w = false ->
  parsed now (hash :: w) = mkresult [] None (Some [w]) None.
Proof.
  intros Hn Hw Ht Hm.
  assert (Tk : tokens (hash :: w) = [Sep hash; Word w]).
  { rewrite <- (tokens_detok [Sep hash; Word w]).
    - unfold detok. cbn. now rewrite app_nil_r.
    - cbn [wf_tokens is_sep_head]. rewrite Hw.
      destruct w; [congruence|reflexivity]. }
  assert (Wr : word_run w = length w).
  { rewrite <- (app_nil_r w) at 1. rewrite word_run_word_app by exact Hw.
    cbn. lia. }
  assert (Hh : hashtag_words (hash :: w) = [w]).
  { cbn [hashtag_words]. rewrite Wr.
    replace (char_eqb hash hash) with true by reflexivity.
    destruct w as [|c w]; [congruence|]. cbn [length Nat.eqb negb andb].
    change (S (length w)) with (length (c :: w)). rewrite firstn_all.
    f_equal. rewrite <- (app_nil_r (c :: w)).
    now rewrite hashtag_words_through. }
  assert (St : strip (hash :: w) = hash :: w).
  { apply strip_trimmed. unfold trimmed. cbn [starts_clean rev].
    replace (is_space hash) with false by reflexivity. cbn [negb andb].
    destruct (rev w) as [|c l] eqn:E.
    - apply (f_equal (@rev char)) in E. rewrite rev_involutive in E.
      now subst w.
    - cbn [app starts_clean]. apply negb_true_iff, word_not_space.
      rewrite forallb_forall in Hw. apply Hw, in_rev. rewrite E. now left. }
  assert (Sb : re_sub false tag_pattern (hash :: w) = []).
  { unfold re_sub, tag_pattern. cbn [sub_from re_match_at].
    replace (char_eqb hash hash) with true by reflexivity.
    rewrite Wr. destruct w as [|c w]; [congruence|].
    cbn [length].
    destruct (sub_from_skip (re_match_at false HashWord) (c :: w) []
                (Some hash)) as [p E].
    rewrite app_nil_r in E. cbn [length] in E. now rewrite E. }
  assert (Nb : forall n, str_in (repeat bang (S n)) (hash :: w) = false).
  { intros n. apply no_bangs_in_tag. cbn [forallb].
    replace (char_eqb hash hash) with true by reflexivity. cbn [orb andb].
    rewrite forallb_forall in *. intros c Hc. rewrite (Hw c Hc).
    apply orb_true_r. }
  unfold parsed, date_stage, has_word. rewrite Tk.
  cbn [existsb is_kw orb]. rewrite Ht, Hm. cbn [orb].
  unfold parse_tags. rewrite re_findall_hash, Hh.
  cbn [title empty_result set_title set_tags]. rewrite St, Sb.
  unfold parse_priority. rewrite bangs3, bangs2, !Nb. reflexivity.
Qed.

(** X14: the title is checked before it is parsed. A title that is one
    hashtag, its word not "today" or "tomorrow", passes the check, and
    with [use_nlp] set the [Task] is built with an empty title and the
    word as its tag. *)
Theorem create_task_hashtag_title (now : date) (uid : Z) (d : dict)
    (w : str) (flag : value) :
  w <> [] -> forallb is_word w = true ->
  ci_match today w = false -> ci_match tomorrow w = false ->
  dict_get d (lit "title") = Some (VStr (hash :: w)) ->
  dict_get d (lit "use_nlp") = Some flag -> truthy flag = true ->
  exists data,
    create_task now (Return uid) (Return (VDict d))
    = handle
        (persist
           (mkargs (VStr []) (dict_get_or d (lit "description") (VStr []))
              (dict_get_or d (lit "priority") (VInt 1))
              (dict_get_or d (lit "project_id") VNone) uid)
           data)
    /\ dict_get data (lit "title") = Some (VStr [])
    /\ dict_get data (lit "tags") = Some (VList [VStr w]).
Proof.
  intros Hn Hw Ht Hm Hd Hf Tf.
  exists (dict_update d (result_items (parsed now (hash :: w)))).
  rewrite (create_task_nlp now uid d (hash :: w) flag Hd) by easy.
  rewrite !dict_get_update_items.
  rewrite (parsed_hashtag_only now w Hn Hw Ht Hm). repeat split.
Qed.

(** X15: a title that is no string. With [use_nlp] set the parser's call
    of [strip] fails and the view answers 500 without building a [Task];
    without it the same title is handed to [Task] as it is. *)
Theorem create_task_title_not_string (now : date) (uid : Z) (d : dict)
    (t : value) :
  dict_get d (lit "title") = Some t -> truthy t = true ->
  (forall s, t <> VStr s) ->
  (forall flag, dict_get d (lit "use_nlp") = Some flag ->
     truthy flag = true ->
     create_task now (Return uid) (Return (VDict d))
     = (ErrorOf (AttributeError (type_name t) "strip"), 500%Z))
  /\ (dict_get d (lit "use_nlp") = None ->
      create_task now (Return uid) (Return (VDict d))
      = handle
          (persist
             (mkargs t (dict_get_or d (lit "description") (VStr []))
                (dict_get_or d (lit "priority") (VInt 1))
                (dict_get_or d (lit "project_id") VNone) uid)
             d)).
Proof.
  intros Ht T Hs. split.
  - intros flag Hf Tf. unfold create_task. cbn [obind]. unfold missing.
    rewrite (dict_get_truthy _ _ _ Ht). cbn [negb value_get obind].
    rewrite Ht, T. cbn [negb obind value_get]. rewrite Hf, Tf.
    cbn [value_item obind]. rewrite Ht. cbn [obind].
    destruct t; try reflexivity. now destruct (Hs s).
  - intros Hf. unfold create_task. cbn [obind]. unfold missing.
    rewrite (dict_get_truthy _ _ _ Ht). cbn [negb value_get obind].
    rewrite Ht, T. cbn [negb obind value_get]. rewrite Hf.
    cbn [truthy obind value_item value_get]. rewrite Ht.
    reflexivity.
Qed.

(** X16: what the create view turns away before anything is built. A
    falsy body or a missing or falsy ["title"] (null, false, 0, an empty
    string, list or object) is a 400 "Title is required" whatever the
    rest of the request; an exception while reading the user's identity
    is a 500 before the body is looked at. *)
Theorem create_task_title_required (now : date) (uid : Z) (data : value) :
  (truthy data = false
   \/ exists d, data = VDict d
                /\ forall t, dict_get d (lit "title") = Some t ->
                             truthy t = false) ->
  create_task now (Return uid) (Return data)
  = (error_body "Title is required", 400%Z)
  /\ forall e get_json,
       create_task now (Throw e) get_json = (ErrorOf e, 500%Z).
Proof.
  intros H. split; [|reflexivity].
  unfold create_task. cbn [obind]. unfold missing.
  destruct H as [T|(d & -> & Ht)]; [now rewrite T|].
  destruct (truthy (VDict d)); [|reflexivity]. cbn [negb value_get obind].
  destruct (dict_get d (lit "title")) as [t|]; [|reflexivity].
  now rewrite (Ht t eq_refl).
Qed.

End Parser.

(** ** Runs on concrete inputs *)

(** The examples of the specification that involve no weekday. *)
Lemma spec_examples :
  parse_natural_language latin1_alnum friday_15_march_2024
    (lit "Buy groceries")
  = Ok (mkresult (lit "Buy groceries") None None None)
  /\ parse_natural_language latin1_alnum friday_15_march_2024
       (lit "Important meeting !!")
     = Ok (mkresult (lit "Important meeting") None None (Some 2%Z))
  /\ parse_natural_language latin1_alnum friday_15_march_2024
       (lit "Meeting tomorrow #work !!")
     = Ok (mkresult (lit "Meeting") (Some (mkdate 2024 3 16))
             (Some [lit "work"]) (Some 2%Z))
  /\ weekday friday_15_march_2024 = 4%Z.
Proof. repeat split; reflexivity. Qed.

Lemma C10_blank_input_witness :
  forallb is_space (lit "   ") = true
  /\ parse_natural_language latin1_alnum friday_15_march_2024 (lit "   ")
     = Ok (mkresult [] None None None).
Proof.
  split; [reflexivity|].
  apply C10_blank_input. reflexivity.
Defined.

Lemma C9_failed_date_rule_skipped_witness :
  day wednesday_31_january_2024
  = days_in_month (year wednesday_31_january_2024)
      (month wednesday_31_january_2024)
  /\ has_word latin1_alnum today (lit "tomorrow") = false
  /\ parse_natural_language latin1_alnum wednesday_31_january_2024
       (lit "tomorrow")
     = Ok (mkresult (lit "tomorrow") None None None).
Proof.
  assert (H1 : day wednesday_31_january_2024
               = days_in_month (year wednesday_31_january_2024)
                   (month wednesday_31_january_2024)) by reflexivity.
  assert (H2 : has_word latin1_alnum today (lit "tomorrow") = false)
    by reflexivity.
  split; [exact H1|]. split; [exact H2|].
  destruct (C9_failed_date_rule_skipped latin1_alnum
              wednesday_31_january_2024 (lit "tomorrow") H1 H2)
    as (_ & _ & _ & _ & _ & E & _).
  rewrite E. reflexivity.
Defined.

Lemma C8_tags_exhaustive_witness :
  exists r1 r,
    parse_dates latin1_alnum (date_patterns friday_15_march_2024)
      (lit "Buy food today #shop #Today")
      (empty_result (lit "Buy food today #shop #Today")) = Ok r1
    /\ parse_natural_language latin1_alnum friday_15_march_2024
         (lit "Buy food today #shop #Today") = Ok r
    /\ tags r = Some [lit "shop"; lit "Today"]
    /\ hashtag_words latin1_alnum (title r1) = [lit "shop"]
    /\ hashtag_words latin1_alnum (title r) = [].
Proof.
  destruct (proj1 (C8_tags_exhaustive latin1_alnum friday_15_march_2024)
              (lit "Buy food today #shop #Today"))
    as (r1 & r & E1 & E & T & _ & _ & H1 & _ & H).
  exists r1, r. split; [exact E1|]. split; [exact E|]. split; [exact T|].
  pose proof E as R. vm_compute in R. injection R as <-.
  split; [rewrite H1; reflexivity|].
  apply H. reflexivity.
Defined.

Lemma C5_first_date_rule_wins_witness :
  (exists r1,
     parse_dates latin1_alnum (date_patterns friday_15_march_2024)
       (lit "today tomorrow") (empty_result (lit "today tomorrow")) = Ok r1
     /\ due_date r1 = Some friday_15_march_2024
     /\ title r1 = lit "tomorrow"
     /\ has_word latin1_alnum today (title r1) = false
     /\ has_word latin1_alnum tomorrow (title r1) = true)
  /\ (exists r1,
        parse_dates latin1_alnum
          (date_patterns friday_15_march_2024)
          (lit "Meeting tomorrow") (empty_result (lit "Meeting tomorrow"))
        = Ok r1
        /\ due_date r1 = Some (mkdate 2024 3 16)
        /\ title r1 = lit "Meeting"
        /\ has_word latin1_alnum tomorrow (title r1) = false).
Proof.
  split.
  - destruct (proj1 (C5_first_date_rule_wins latin1_alnum
                       friday_15_march_2024) (lit "today tomorrow"))
      as (r1 & E & H & _).
    destruct (H eq_refl) as (D & T & G & O).
    exists r1. split; [exact E|]. split; [exact D|].
    split; [rewrite T; reflexivity|]. split; [exact G|].
    rewrite (O tomorrow); [reflexivity|reflexivity|discriminate].
  - destruct (proj1 (C5_first_date_rule_wins latin1_alnum
                       friday_15_march_2024) (lit "Meeting tomorrow"))
      as (r1 & E & _ & H).
    destruct (H eq_refl eq_refl (mkdate 2024 3 16) eq_refl) as (D & T & G & _).
    exists r1. split; [exact E|]. split; [exact D|].
    split; [rewrite T; reflexivity|exact G].
Defined.

Lemma C3_title_markers_witness :
  (exists r,
     parse_natural_language latin1_alnum friday_15_march_2024
       (lit "Urgent !!!") = Ok r
     /\ priority r = Some 3%Z /\ str_in (lit "!!!") (title r) = false)
  /\ (exists r,
        parse_natural_language latin1_alnum friday_15_march_2024
          (lit "Important meeting !!") = Ok r
        /\ priority r = Some 2%Z /\ str_in (lit "!!") (title r) = false)
  /\ (exists r,
        parse_natural_language latin1_alnum friday_15_march_2024
          (lit "Pay rent today #home") = Ok r
        /\ priority r = None /\ tags r <> None /\ due_date r <> None
        /\ hashtag_words latin1_alnum (title r) = []
        /\ has_word latin1_alnum today (title r) = false).
Proof.
  split; [|split].
  - destruct (C3_title_markers latin1_alnum friday_15_march_2024
                (lit "Urgent !!!")) as (r & E & H3 & _).
    assert (P : priority r = Some 3%Z)
      by (vm_compute in E; injection E as <-; reflexivity).
    exists r. auto.
  - destruct (C3_title_markers latin1_alnum friday_15_march_2024
                (lit "Important meeting !!")) as (r & E & _ & H2 & _).
    assert (P : priority r = Some 2%Z)
      by (vm_compute in E; injection E as <-; reflexivity).
    exists r. auto.
  - destruct (C3_title_markers latin1_alnum friday_15_march_2024
                (lit "Pay rent today #home")) as (r & E & _ & _ & HT & HD).
    assert (P : priority r = None)
      by (vm_compute in E; injection E as <-; reflexivity).
    assert (T : tags r <> None)
      by (vm_compute in E; injection E as <-; discriminate).
    assert (D : due_date r <> None)
      by (vm_compute in E; injection E as <-; discriminate).
    exists r. repeat split; auto.
Defined.

Lemma C4_reparse_witness :
  (exists r r',
     parse_natural_language latin1_alnum friday_15_march_2024
       (lit "Important meeting !!") = Ok r
     /\ parse_natural_language latin1_alnum friday_15_march_2024 (title r)
        = Ok r'
     /\ priority r = Some 2%Z /\ priority r' = None)
  /\ (exists r r',
        parse_natural_language latin1_alnum friday_15_march_2024
          (lit "Urgent !!!") = Ok r
        /\ parse_natural_language latin1_alnum friday_15_march_2024 (title r)
           = Ok r'
        /\ priority r = Some 3%Z /\ priority r' <> Some 3%Z)
  /\ (exists r r',
        parse_natural_language latin1_alnum friday_15_march_2024
          (lit "Pay rent today #home") = Ok r
        /\ parse_natural_language latin1_alnum friday_15_march_2024 (title r)
           = Ok r'
        /\ priority r = None /\ tags r' = None).
Proof.
  split; [|split].
  - destruct (C4_reparse latin1_alnum friday_15_march_2024
                (lit "Important meeting !!")) as (r & r' & E & E' & H2 & _).
    assert (P : priority r = Some 2%Z)
      by (vm_compute in E; injection E as <-; reflexivity).
    exists r, r'. auto.
  - destruct (C4_reparse latin1_alnum friday_15_march_2024
                (lit "Urgent !!!")) as (r & r' & E & E' & _ & H3 & _).
    assert (P : priority r = Some 3%Z)
      by (vm_compute in E; injection E as <-; reflexivity).
    exists r, r'. auto.
  - destruct (C4_reparse latin1_alnum friday_15_march_2024
                (lit "Pay rent today #home")) as (r & r' & E & E' & _ & _ & H).
    assert (P : priority r = None)
      by (vm_compute in E; injection E as <-; reflexivity).
    exists r, r'. repeat split; auto. exact (proj1 (H P)).
Defined.

(** ** Inputs on which the claims as first stated fail *)

(** C3 as stated: with priority 3 extracted the title still holds "!!". *)
Lemma C3_title_markers_counterexample :
  parse_natural_language latin1_alnum friday_15_march_2024 (lit "!!!!!")
  = Ok (mkresult (lit "!!") None None (Some 3%Z))
  /\ str_in (lit "!!") (lit "!!") = true.
Proof. split; reflexivity. Qed.

(** C4 as stated: the title of a result with priority 3 parses to
    priority 2. *)
Lemma C4_reparse_counterexample :
  parse_natural_language latin1_alnum friday_15_march_2024
    (lit "Ship it !!!!!")
  = Ok (mkresult (lit "Ship it !!") None None (Some 3%Z))
  /\ parse_natural_language latin1_alnum friday_15_march_2024
       (lit "Ship it !!")
     = Ok (mkresult (lit "Ship it") None None (Some 2%Z)).
Proof. split; reflexivity. Qed.

(** C5 as stated: the second "today" of "today today" is removed too. *)
Lemma C5_first_date_rule_wins_counterexample :
  parse_natural_language latin1_alnum friday_15_march_2024
    (lit "today today")
  = Ok (mkresult [] (Some friday_15_march_2024) None None)
  /\ has_word latin1_alnum today [] = false.
Proof. split; reflexivity. Qed.

(** C6 as stated: the word of "#today" is consumed by the date stage and
    extracted as a tag all the same, while the text left by the date stage
    holds no hashtag. *)
Lemma C6_detection_on_input_counterexample :
  parse_natural_language latin1_alnum friday_15_march_2024 (lit "#today")
  = Ok (mkresult (lit "#") (Some friday_15_march_2024)
          (Some [lit "today"]) None)
  /\ parse_dates latin1_alnum (date_patterns friday_15_march_2024)
       (lit "#today") (empty_result (lit "#today"))
     = Ok (mkresult (lit "#") (Some friday_15_march_2024) None None)
  /\ hashtag_words latin1_alnum (lit "#") = [].
Proof. repeat split; reflexivity. Qed.

(** C8 as stated: the hashtag of "a #today b" is collected but not
    removed. The date stage takes its word first, the tag stage finds no
    hashtag in the title it is given, although tags is present, and the
    hash stays in the returned title. *)
Lemma C8_tags_exhaustive_counterexample :
  parse_natural_language latin1_alnum friday_15_march_2024
    (lit "a #today b")
  = Ok (mkresult (lit "a # b") (Some friday_15_march_2024)
          (Some [lit "today"]) None)
  /\ parse_dates latin1_alnum (date_patterns friday_15_march_2024)
       (lit "a #today b") (empty_result (lit "a #today b"))
     = Ok (mkresult (lit "a # b") (Some friday_15_march_2024) None None)
  /\ hashtag_words latin1_alnum (lit "a # b") = []
  /\ str_in [hash] (lit "a # b") = true.
Proof. repeat split; reflexivity. Qed.

(** C9 as stated: on the last day of January the phrase of the failed
    rule does not stay in the returned title of "#tomorrow", which the tag
    stage empties, nor as a whole word in that of "tomorrow!!x". *)
Lemma C9_failed_date_rule_skipped_counterexample :
  parse_natural_language latin1_alnum wednesday_31_january_2024
    (lit "#tomorrow")
  = Ok (mkresult [] None (Some [lit "tomorrow"]) None)
  /\ has_word latin1_alnum tomorrow (lit "#tomorrow") = true
  /\ str_in tomorrow [] = false
  /\ parse_natural_language latin1_alnum wednesday_31_january_2024
       (lit "tomorrow!!x")
     = Ok (mkresult (lit "tomorrowx") None None (Some 2%Z))
  /\ has_word latin1_alnum tomorrow (lit "tomorrow!!x") = true
  /\ has_word latin1_alnum tomorrow (lit "tomorrowx") = false.
Proof. repeat split; reflexivity. Qed.

(** ** Runs of the further properties *)

Lemma get_next_weekday_is_next_witness :
  get_next_weekday friday_15_march_2024 (lit "Monday") = Ok (mkdate 2024 3 18)
  /\ exists k,
       (1 <= k <= 7)%Z
       /\ mkdate 2024 3 18 = mkdate 2024 3 (15 + k)
       /\ weekday (mkdate 2024 3 18) = 0%Z
       /\ valid_date (mkdate 2024 3 18) = true.
Proof.
  assert (H : get_next_weekday friday_15_march_2024 (lit "Monday")
              = Ok (mkdate 2024 3 18)) by reflexivity.
  split; [exact H|].
  destruct (get_next_weekday_is_next _ _ _ H) as (k & Hk & E & _ & _ & _ & V).
  exists k. split; [exact Hk|]. split; [exact E|].
  split; [reflexivity|]. apply V. reflexivity.
Defined.

Lemma get_next_weekday_unknown_name_witness :
  ~ In (str_lower (lit "Someday")) days
  /\ get_next_weekday friday_15_march_2024 (lit "Someday") = Raise ValueError.
Proof.
  assert (H : ~ In (str_lower (lit "Someday")) days).
  { cbn. intros F.
    repeat (destruct F as [F|F]; [discriminate F|]). exact F. }
  split; [exact H|]. now apply get_next_weekday_unknown_name.
Defined.

Lemma get_next_weekday_month_end_witness :
  (exists d, get_next_weekday friday_15_march_2024 (lit "friday") = Ok d)
  /\ get_next_weekday wednesday_31_january_2024 (lit "friday")
     = Raise ValueError.
Proof.
  split.
  - apply (proj1 (get_next_weekday_month_end friday_15_march_2024
                    (lit "friday") eq_refl)).
    + apply Z.leb_le. reflexivity.
    + do 4 right. left. reflexivity.
  - now apply (proj2 (get_next_weekday_month_end wednesday_31_january_2024
                        (lit "friday") eq_refl)).
Defined.

Lemma get_next_weekday_ignores_case_witness :
  same_text (lit "monday") (lit "MonDay")
  /\ get_next_weekday friday_15_march_2024 (lit "MonDay")
     = get_next_weekday friday_15_march_2024 (lit "monday").
Proof.
  assert (H : same_text (lit "monday") (lit "MonDay"))
    by (repeat constructor).
  split; [exact H|]. now apply get_next_weekday_ignores_case.
Defined.

Lemma parse_tags_are_words_witness :
  parse_natural_language latin1_alnum friday_15_march_2024
    (lit "Buy groceries #shopping #food")
  = Ok (mkresult (lit "Buy groceries") None
          (Some [lit "shopping"; lit "food"]) None)
  /\ Forall (fun w => w <> [] /\ forallb (is_word latin1_alnum) w = true
                      /\ str_in (hash :: w)
                           (lit "Buy groceries #shopping #food") = true)
       [lit "shopping"; lit "food"].
Proof.
  assert (H : parse_natural_language latin1_alnum friday_15_march_2024
                (lit "Buy groceries #shopping #food")
              = Ok (mkresult (lit "Buy groceries") None
                      (Some [lit "shopping"; lit "food"]) None))
    by reflexivity.
  split; [exact H|].
  exact (proj2 (parse_tags_are_words latin1_alnum _ _ _ _ H eq_refl)).
Defined.

Lemma parse_due_date_range_witness :
  valid_date friday_15_march_2024 = true
  /\ exists r,
       parse_natural_language latin1_alnum friday_15_march_2024
         (lit "Meeting tomorrow") = Ok r
       /\ due_date r = Some (mkdate 2024 3 16)
       /\ valid_date (mkdate 2024 3 16) = true.
Proof.
  split; [reflexivity|].
  destruct (parse_due_date_range latin1_alnum friday_15_march_2024
              (lit "Meeting tomorrow") eq_refl) as (r & E & _ & H).
  assert (D : due_date r = Some (mkdate 2024 3 16))
    by (vm_compute in E; injection E as <-; reflexivity).
  exists r. split; [exact E|]. split; [exact D|]. apply (H _ D).
Defined.

Lemma parse_plain_text_witness :
  parse_natural_language latin1_alnum friday_15_march_2024
    (lit " Buy groceries on monday ")
  = Ok (mkresult (lit "Buy groceries on monday") None None None)
  /\ parse_natural_language latin1_alnum friday_15_march_2024
       (lit "Buy groceries on monday")
     = Ok (mkresult (lit "Buy groceries on monday") None None None).
Proof.
  exact (parse_plain_text latin1_alnum friday_15_march_2024
           (lit " Buy groceries on monday ") eq_refl eq_refl eq_refl eq_refl).
Defined.

Lemma parse_ignores_case_witness :
  same_text (lit "Meeting tomorrow #Work !!") (lit "MEETING Tomorrow #work !!")
  /\ exists r r',
       parse_natural_language latin1_alnum friday_15_march_2024
         (lit "Meeting tomorrow #Work !!") = Ok r
       /\ parse_natural_language latin1_alnum friday_15_march_2024
            (lit "MEETING Tomorrow #work !!") = Ok r'
       /\ same_result r r'.
Proof.
  assert (H : same_text (lit "Meeting tomorrow #Work !!")
                (lit "MEETING Tomorrow #work !!")) by (repeat constructor).
  split; [exact H|]. now apply parse_ignores_case.
Defined.

Lemma parse_task_ok_witness :
  parse_task latin1_alnum friday_15_march_2024
    (Return (VDict [(lit "text", VStr (lit "Important meeting !!"))]))
  = (JsonOf (VDict [(lit "parsed",
                     VDict [(lit "title", VStr (lit "Important meeting"));
                            (lit "priority", VInt 2)])]), 200%Z).
Proof.
  rewrite (proj1 (parse_task_ok latin1_alnum friday_15_march_2024 _)
             [(lit "text", VStr (lit "Important meeting !!"))]
             (lit "Important meeting !!") eq_refl eq_refl).
  reflexivity.
Defined.

Lemma parse_task_rejects_witness :
  snd (parse_task latin1_alnum friday_15_march_2024
         (Return (VDict [(lit "text", VStr [])]))) = 400%Z
  /\ parse_task latin1_alnum friday_15_march_2024
       (Return (VList [VInt 1]))
     = (ErrorOf (AttributeError "list" "get"), 500%Z)
  /\ parse_task latin1_alnum friday_15_march_2024
       (Return (VDict [(lit "text", VInt 5)]))
     = (ErrorOf (AttributeError "int" "strip"), 500%Z).
Proof.
  split; [|split].
  - apply (proj1 (parse_task_rejects latin1_alnum friday_15_march_2024 _)).
    eexists. split; [reflexivity|]. right. eexists. split; [reflexivity|].
    intros t [= <-]. reflexivity.
  - apply (proj1 (proj2 (parse_task_rejects latin1_alnum
                           friday_15_march_2024 _)) (VList [VInt 1]));
      [reflexivity|reflexivity|discriminate].
  - apply (proj1 (proj2 (proj2 (parse_task_rejects latin1_alnum
                                  friday_15_march_2024 _)))
             [(lit "text", VInt 5)] (VInt 5));
      [reflexivity|reflexivity|reflexivity|discriminate].
Defined.

Lemma parse_task_blank_text_witness :
  parse_task latin1_alnum friday_15_march_2024
    (Return (VDict [(lit "text", VStr (lit "  "))]))
  = (JsonOf (VDict [(lit "parsed", VDict [(lit "title", VStr [])])]), 200%Z).
Proof.
  apply (parse_task_blank_text latin1_alnum friday_15_march_2024
           [(lit "text", VStr (lit "  "))] (lit "  "));
    [reflexivity|discriminate|reflexivity].
Defined.

Lemma create_task_nlp_merge_witness :
  create_task latin1_alnum
    (fun args data => Return (JsonOf (VDict data), 201%Z))
    friday_15_march_2024 (Return 7%Z)
    (Return (VDict [(lit "title", VStr (lit "Meeting tomorrow #work !!"));
                    (lit "use_nlp", VBool true);
                    (lit "priority", VInt 3)]))
  = (JsonOf (VDict [(lit "title", VStr (lit "Meeting"));
                    (lit "use_nlp", VBool true);
                    (lit "priority", VInt 2);
                    (lit "due_date", VDate (mkdate 2024 3 16));
                    (lit "tags", VList [VStr (lit "work")])]), 201%Z).
Proof.
  destruct (create_task_nlp_merge latin1_alnum
              (fun args data => Return (JsonOf (VDict data), 201%Z))
              friday_15_march_2024 7%Z
              [(lit "title", VStr (lit "Meeting tomorrow #work !!"));
               (lit "use_nlp", VBool true); (lit "priority", VInt 3)]
              (lit "Meeting tomorrow #work !!") (VBool true)
              eq_refl ltac:(discriminate) eq_refl eq_refl) as (_ & E & _).
  rewrite E. reflexivity.
Defined.

Lemma create_task_hashtag_title_witness :
  exists data,
    create_task latin1_alnum
      (fun args data => Return (JsonOf (arg_title args), 201%Z))
      friday_15_march_2024 (Return 7%Z)
      (Return (VDict [(lit "title", VStr (lit "#work"));
                      (lit "use_nlp", VBool true)]))
    = (JsonOf (VStr []), 201%Z)
    /\ dict_get data (lit "tags") = Some (VList [VStr (lit "work")]).
Proof.
  destruct (create_task_hashtag_title latin1_alnum
              (fun args data => Return (JsonOf (arg_title args), 201%Z))
              friday_15_march_2024 7%Z
              [(lit "title", VStr (lit "#work")); (lit "use_nlp", VBool true)]
              (lit "work") (VBool true)
              ltac:(discriminate) eq_refl eq_refl eq_refl eq_refl eq_refl
              eq_refl) as (data & E & _ & T).
  exists data. split; [rewrite E; reflexivity|exact T].
Defined.

Lemma create_task_title_not_string_witness :
  create_task latin1_alnum
    (fun args data => Return (JsonOf (arg_title args), 201%Z))
    friday_15_march_2024 (Return 7%Z)
    (Return (VDict [(lit "title", VInt 5); (lit "use_nlp", VBool true)]))
  = (ErrorOf (AttributeError "int" "strip"), 500%Z)
  /\ create_task latin1_alnum
       (fun args data => Return (JsonOf (arg_title args), 201%Z))
       friday_15_march_2024 (Return 7%Z)
       (Return (VDict [(lit "title", VInt 5)]))
     = (JsonOf (VInt 5), 201%Z).
Proof.
  split.
  - apply (proj1 (create_task_title_not_string latin1_alnum _
                    friday_15_march_2024 7%Z
                    [(lit "title", VInt 5); (lit "use_nlp", VBool true)]
                    (VInt 5) eq_refl eq_refl ltac:(discriminate))
             (VBool true)); reflexivity.
  - rewrite (proj2 (create_task_title_not_string latin1_alnum _
                      friday_15_march_2024 7%Z [(lit "title", VInt 5)]
                      (VInt 5) eq_refl eq_refl ltac:(discriminate)));
      reflexivity.
Defined.

Lemma create_task_title_required_witness :
  create_task latin1_alnum
    (fun args data => Return (JsonOf (arg_title args), 201%Z))
    friday_15_march_2024 (Return 7%Z)
    (Return (VDict [(lit "title", VStr []); (lit "use_nlp", VBool true)]))
  = (error_body "Title is required", 400%Z).
Proof.
  apply (create_task_title_required latin1_alnum _ friday_15_march_2024 7%Z).
  right. eexists. split; [reflexivity|]. intros t [= <-]. reflexivity.
Defined.
